(** * Jukebox embedding extraction (jukebox/mir.py): model and properties

    The script is glue around three collaborators: librosa (decoding and
    resampling), the Jukebox VQ-VAE (tokenisation) and the Jukebox top-level
    prior (conditioning and forward pass).  The functions of the script are
    embedded as Rocq functions; the collaborators are records of functions
    that the script receives.

    Conventions of the embedding:
    - a Python [int] is a [Z]; [%] and [//] are [Z.modulo] and [Z.div]
      (both round towards minus infinity for a positive divisor, as in
      Python) and raise [ZeroDivisionError] on a zero divisor;
    - an array (numpy or torch) is a shape and a contiguous row-major buffer;
    - samples and activations are rationals, so arithmetic is exact;
    - a raised exception is the [Raise] case of [result]. *)

From Stdlib Require Import ZArith QArith Qabs Qminmax Lia.
From stdpp Require Import base list strings gmap sorting.

Local Open Scope Z_scope.

(** ** Exceptions and results *)

Inductive exn : Type :=
| ValueError (msg : string)
| AssertionError (msg : string)
| RuntimeError (msg : string)
| ZeroDivisionError
| IndexError
| KeyError (key : string)
| TypeError (msg : string)
| FileNotFoundError (path : string * string).

Inductive result (A : Type) : Type :=
| Ok (a : A)
| Raise (e : exn).
Arguments Ok {A} a.
Arguments Raise {A} e.

Definition bind {A B} (r : result A) (k : A -> result B) : result B :=
  match r with
  | Ok a => k a
  | Raise e => Raise e
  end.

Notation "x <- r ;; k" := (bind r (fun x => k))
  (at level 100, r at next level, right associativity).

Definition is_ok {A} (r : result A) : bool :=
  match r with Ok _ => true | Raise _ => false end.

(** Python's [a % b] on integers. *)
Definition py_mod (a b : Z) : result Z :=
  if b =? 0 then Raise ZeroDivisionError else Ok (a mod b).

(** Python's [a // b] on integers. *)
Definition py_floordiv (a b : Z) : result Z :=
  if b =? 0 then Raise ZeroDivisionError else Ok (a / b).

(** ** Arrays *)

Record tensor (A : Type) : Type := Tensor { shape : list Z; data : list A }.
Arguments Tensor {A} shape data.
Arguments shape {A} t.
Arguments data {A} t.

Definition numel_of (s : list Z) : Z := foldr Z.mul 1 s.

Definition range (n : Z) : list Z := map Z.of_nat (seq 0 (Z.to_nat n)).

Section Arrays.
Context {A : Type}.

Definition numel (t : tensor A) : Z := numel_of (shape t).
Definition ndim (t : tensor A) : Z := Z.of_nat (length (shape t)).

(** The buffer has as many elements as the shape says. *)
Definition well_formed (t : tensor A) : Prop :=
  Forall (fun d => 0 <= d) (shape t) /\ Z.of_nat (length (data t)) = numel t.

(** [t.shape[k]] and [t.size(k)], for [k >= 0]. *)
Definition size (t : tensor A) (k : nat) : result Z :=
  match shape t !! k with
  | Some d => Ok d
  | None => Raise IndexError
  end.

(** [t.shape[-1]]. *)
Definition last_size (t : tensor A) : result Z :=
  match last (shape t) with
  | Some d => Ok d
  | None => Raise IndexError
  end.

(** [t[np.newaxis]]: a leading axis of size 1. *)
Definition newaxis (t : tensor A) : tensor A := Tensor (1 :: shape t) (data t).

(** [t[..., np.newaxis]]: a trailing axis of size 1. *)
Definition newaxis_last (t : tensor A) : tensor A := Tensor (shape t ++ [1]) (data t).

(** [t.flatten()]. *)
Definition flatten (t : tensor A) : tensor A := Tensor [numel t] (data t).

(** [t.squeeze()]: every axis of size 1 is dropped. *)
Definition squeeze (t : tensor A) : tensor A :=
  Tensor (filter (fun d => d <> 1) (shape t)) (data t).

(** [t[:n]] with [n >= 0]: the first [n] entries along axis 0. *)
Definition slice0 (t : tensor A) (n : Z) : result (tensor A) :=
  match shape t with
  | [] => Raise IndexError
  | d :: rest =>
      let k := Z.min n d in
      Ok (Tensor (k :: rest) (take (Z.to_nat (k * numel_of rest)) (data t)))
  end.

(** [t[0]]: the first entry along axis 0. *)
Definition index0 (t : tensor A) : result (tensor A) :=
  match shape t with
  | [] => Raise IndexError
  | d :: rest =>
      if 0 <? d then Ok (Tensor rest (take (Z.to_nat (numel_of rest)) (data t)))
      else Raise IndexError
  end.

(** The entry at row [i], column [j] of a two-dimensional array. *)
Definition item2 (dflt : A) (t : tensor A) (i j : Z) : A :=
  nth (Z.to_nat (i * nth 1 (shape t) 0 + j)) (data t) dflt.

(** torch's shape inference for [view]: at most one requested size is
    [-1], the others are non-negative, and the element count is kept. *)
Fixpoint infer_scan (req : list Z) (newsize : Z) (inferred : bool)
  : result (Z * bool) :=
  match req with
  | [] => Ok (newsize, inferred)
  | d :: req' =>
      if d =? -1 then
        if inferred then Raise (RuntimeError "only one dimension can be inferred")
        else infer_scan req' newsize true
      else if 0 <=? d then infer_scan req' (newsize * d) inferred
      else Raise (RuntimeError "invalid shape dimension")
  end.

Definition infer_size (req : list Z) (n : Z) : result (list Z) :=
  p <- infer_scan req 1 false ;;
  let '(newsize, inferred) := p in
  if (n =? newsize) || (inferred && (0 <? newsize) && (n mod newsize =? 0)) then
    if inferred then
      if newsize =? 0 then
        Raise (RuntimeError "cannot reshape tensor of 0 elements: -1 is ambiguous")
      else Ok (map (fun d => if d =? -1 then n / newsize else d) req)
    else Ok req
  else Raise (RuntimeError "shape is invalid for input size").

(** [t.view] with the requested sizes [req], on a contiguous tensor. *)
Definition view (t : tensor A) (req : list Z) : result (tensor A) :=
  s <- infer_size req (numel t) ;;
  Ok (Tensor s (data t)).
End Arrays.

(** ** Means *)

Definition Qsum (l : list Q) : Q := foldr Qplus 0%Q l.

(** The arithmetic mean of a list of samples.  The mean of no samples,
    which numpy and torch give as NaN, is 0 here; the statements below
    about values are for reductions over at least one entry. *)
Definition Qmean (l : list Q) : Q := (Qsum l / inject_Z (Z.of_nat (length l)))%Q.

(** The entries [d[(o*b + k)*inner + i]] for [k = 0 .. b-1]: the values that
    a reduction along an axis of size [b] combines into output entry
    [(o, i)]. *)
Definition lane (d : list Q) (b inner o i : nat) : list Q :=
  map (fun k => nth ((o * b + k) * inner + i)%nat d 0%Q) (seq 0 b).

(** [t.mean(dim)] (torch) and [t.mean(axis=dim)] (numpy) for [dim >= 0]. *)
Definition mean_dim (t : tensor Q) (dim : nat) : result (tensor Q) :=
  match shape t !! dim with
  | None => Raise IndexError
  | Some b =>
      let outer := Z.to_nat (numel_of (take dim (shape t))) in
      let inner := Z.to_nat (numel_of (drop (S dim) (shape t))) in
      Ok (Tensor (take dim (shape t) ++ drop (S dim) (shape t))
            (flat_map
               (fun o => map (fun i => Qmean (lane (data t) (Z.to_nat b) inner o i))
                           (seq 0 inner))
               (seq 0 outer)))
  end.

(** ** Model constants (mir.py, lines 18-21) *)

Definition JUKEBOX_SAMPLE_RATE : Z := 44100.
Definition T : Z := 8192.
Definition SAMPLE_LENGTH : Z := 1048576.
Definition DEPTH : Z := 36.

(** ** Pooling (get_acts_from_array, lines 140-147) *)

Definition meanpool_message : string :=
  "The 'meanpool' param must be divisible by 8192. ".

Definition pool_activations (acts : tensor Q) (meanpool : Z) : result (tensor Q) :=
  let acts := squeeze acts in
  n <- size acts 0 ;;
  r <- py_mod n meanpool ;;
  if r =? 0 then
    acts <- view acts [meanpool; -1; 4800] ;;
    mean_dim acts 1
  else Raise (AssertionError meanpool_message).

(** ** Audio preprocessing (lines 26-53) *)

(** librosa, as the script uses it.  [lr_resample y orig target] is
    [lr.resample]; [lr_load path sr] is [lr.load(path, sr=sr)], which may
    fail to decode. *)
Record Librosa : Type := {
  lr_resample : tensor Q -> Z -> Z -> tensor Q;
  lr_load : string * string -> Z -> result (tensor Q)
}.

Definition np_abs (t : tensor Q) : tensor Q := Tensor (shape t) (map Qabs (data t)).

(** [t.max()]: numpy refuses to reduce an array without elements. *)
Definition np_max (t : tensor Q) : result Q :=
  match data t with
  | [] => Raise (ValueError "zero-size array to reduction operation maximum which has no identity")
  | x :: l => Ok (foldl Qmax x l)
  end.

(** [t /= c]. *)
Definition np_div_scalar (t : tensor Q) (c : Q) : tensor Q :=
  Tensor (shape t) (map (fun x => (x / c)%Q) (data t)).

Definition Qgt0 (x : Q) : bool := negb (Qle_bool x 0).

Definition ndim_message : string := "audio must have shape (n_channels, n_samples)".

(** Lines 28-34: resampling and the average over the channels. *)
Definition downmix (lr : Librosa) (audio : tensor Q) (sr : Z) : result (tensor Q) :=
  let audio := lr_resample lr audio sr JUKEBOX_SAMPLE_RATE in
  let audio := if ndim audio =? 1 then newaxis audio else audio in
  if ndim audio =? 2 then mean_dim audio 0
  else Raise (AssertionError ndim_message).

(** Lines 36-41: peak normalisation, skipped for a silent buffer. *)
Definition normalize (audio : tensor Q) : result (tensor Q) :=
  norm_factor <- np_max (np_abs audio) ;;
  let audio := if Qgt0 norm_factor then np_div_scalar audio norm_factor else audio in
  Ok (flatten audio).

Definition preprocess_audio (lr : Librosa) (audio : tensor Q) (sr : Z)
  : result (tensor Q) :=
  audio <- downmix lr audio sr ;;
  normalize audio.

Definition load_audio_from_file (lr : Librosa) (fpath : string * string)
  : result (tensor Q) :=
  audio <- lr_load lr fpath JUKEBOX_SAMPLE_RATE ;;
  preprocess_audio lr audio JUKEBOX_SAMPLE_RATE.

(** [np.zeros(n)]. *)
Definition np_zeros (n : Z) : result (tensor Q) :=
  if n <? 0 then Raise (ValueError "negative dimensions are not allowed")
  else Ok (Tensor [n] (repeat 0%Q (Z.to_nat n))).

(** [np.concatenate([a, b], axis=0)]: the trailing axes must agree. *)
Definition np_concatenate (a b : tensor Q) : result (tensor Q) :=
  match shape a, shape b with
  | n :: ra, k :: rb =>
      if decide (ra = rb) then Ok (Tensor (n + k :: ra) (data a ++ data b))
      else Raise (ValueError "all the input array dimensions except for the concatenation axis must match exactly")
  | _, _ => Raise (ValueError "zero-dimensional arrays cannot be concatenated")
  end.

Definition audio_padding (audio : tensor Q) (target_length : Z) : result (tensor Q) :=
  n <- size audio 0 ;;
  let padding_length := target_length - n in
  padding_vector <- np_zeros padding_length ;;
  np_concatenate audio padding_vector.

(** Lines 126-128 of get_acts_from_array: pad only a short buffer. *)
Definition zero_padding (audio : tensor Q) : result (tensor Q) :=
  n <- size audio 0 ;;
  if n <? SAMPLE_LENGTH then audio_padding audio SAMPLE_LENGTH else Ok audio.

(** ** Tokenisation (lines 56-69) *)

(** The VQ-VAE: [encode] returns one token tensor per level. *)
Record VQVAE : Type := {
  encode : tensor Q -> list (tensor Z)
}.

(** [audio[np.newaxis, :, np.newaxis]]. *)
Definition batch_and_channel_axes {A} (t : tensor A) : result (tensor A) :=
  match shape t with
  | [] => Raise IndexError
  | d :: rest => Ok (Tensor (1 :: d :: 1 :: rest) (data t))
  end.

Definition too_short_message : string := "Audio file is not long enough".

(** Lines 58-62 and the first half of line 64: the coarsest level of the
    encoding of the first 25 seconds. *)
Definition top_tokens (vqvae : VQVAE) (audio : tensor Q) : result (tensor Z) :=
  audio <- slice0 audio (JUKEBOX_SAMPLE_RATE * 25) ;;
  x <- batch_and_channel_axes audio ;;
  let zs := encode vqvae x in
  match last zs with
  | None => Raise IndexError
  | Some top => Ok top
  end.

Definition get_z (vqvae : VQVAE) (audio : tensor Q) : result (tensor Z) :=
  top <- top_tokens vqvae audio ;;
  let z := newaxis (flatten top) in
  n <- last_size z ;;
  if n <? 8192 then Raise (ValueError too_short_message) else Ok z.

(** ** The mutable state of a run *)

(** A value held by the hyperparameter bundle, which is a dictionary with
    attribute access: reading a missing field is a failed dictionary
    lookup. *)
Inductive hval : Type :=
| HInt (n : Z)
| HStr (s : string)
| HFloats (l : list Q).

(** A call that the batch driver makes, as recorded in the history. *)
Inductive call : Type :=
| Call_np_load (p : string * string)
| Call_get_acts_from_file (p : string * string)
| Call_np_save (p : string * string) (arr : tensor Q).

(** [hps] is the bundle shared by all files of a run, [only_encode] the
    flag of the prior's transformer, [files] the array files on disk
    (directory and file name), [history] the driver's calls so far. *)
Record World : Type := {
  hps : gmap string hval;
  only_encode : bool;
  files : gmap (string * string) (tensor Q);
  history : list call
}.

Definition M (A : Type) : Type := World -> result A * World.

Definition ret {A} (a : A) : M A := fun w => (Ok a, w).
Definition lift {A} (r : result A) : M A := fun w => (r, w).
Definition bindM {A B} (m : M A) (k : A -> M B) : M B :=
  fun w => match m w with
           | (Ok a, w') => k a w'
           | (Raise e, w') => (Raise e, w')
           end.

Notation "x <~ m ;; k" := (bindM m (fun x => k))
  (at level 100, m at next level, right associativity).

Definition set_hps (h : gmap string hval) : M unit :=
  fun w => (Ok tt, {| hps := h; only_encode := only_encode w;
                      files := files w; history := history w |}).

Definition set_only_encode (b : bool) : M unit :=
  fun w => (Ok tt, {| hps := hps w; only_encode := b;
                      files := files w; history := history w |}).

Definition record (c : call) : M unit :=
  fun w => (Ok tt, {| hps := hps w; only_encode := only_encode w;
                      files := files w; history := history w ++ [c] |}).

(** [hps.field], for a field that holds an integer. *)
Definition hps_int (field : string) : M Z :=
  fun w => match hps w !! field with
           | Some (HInt n) => (Ok n, w)
           | Some _ => (Raise (TypeError "not an integer"), w)
           | None => (Raise (KeyError field), w)
           end.

(** [hps.field = v]. *)
Definition hps_assign (field : string) (v : hval) : M unit :=
  fun w => set_hps (<[field := v]> (hps w)) w.

(** ** Conditioning (lines 72-100) *)

Record metadata : Type := {
  artist : string;
  genre : string;
  total_length : Z;
  offset : Z;
  lyrics : string
}.

(** The top-level prior.  [Labels] is what its labeller produces;
    [prior_get_cond] returns [(x_cond, y_cond, prime)]; [forward] is
    [prior.forward] under the given value of [only_encode]. *)
Record Prior (Labels : Type) : Type := {
  raw_to_tokens : Z;
  get_batch_labels : list metadata -> Labels;
  get_y : Labels -> Z -> tensor Z;
  prior_get_cond : tensor Z -> tensor Q * tensor Q * tensor Z;
  forward : bool -> tensor Z -> tensor Q -> tensor Q -> tensor Q
}.
Arguments raw_to_tokens {Labels} p.
Arguments get_batch_labels {Labels} p metas.
Arguments get_y {Labels} p labels start.
Arguments prior_get_cond {Labels} p y.
Arguments forward {Labels} p flag x x_cond y_cond.

(** [x_cond[0, :T][np.newaxis, ...]]. *)
Definition first_rows_batched (x : tensor Q) : result (tensor Q) :=
  x0 <- index0 x ;;
  x0 <- slice0 x0 T ;;
  Ok (newaxis x0).

(** [y_cond[0][np.newaxis, ...]]. *)
Definition first_batched (y : tensor Q) : result (tensor Q) :=
  y0 <- index0 y ;;
  Ok (newaxis y0).

Definition get_cond {Labels} (top_prior : Prior Labels) : M (tensor Q * tensor Q) :=
  let sample_length_in_seconds := 62 in
  sr <~ hps_int "sr" ;;
  q <~ lift (py_floordiv (sample_length_in_seconds * sr) (raw_to_tokens top_prior)) ;;
  _ <~ hps_assign "sample_length" (HInt (q * raw_to_tokens top_prior)) ;;
  sample_length <~ hps_int "sample_length" ;;
  n_samples <~ hps_int "n_samples" ;;
  let metas :=
    repeat {| artist := "unknown"; genre := "unknown";
              total_length := sample_length; offset := 0;
              lyrics := "lyrics go here!!!" |} (Z.to_nat n_samples) in
  let labels := get_batch_labels top_prior metas in
  let '(x_cond, y_cond, prime) := prior_get_cond top_prior (get_y top_prior labels 0) in
  x_cond <~ lift (first_rows_batched x_cond) ;;
  y_cond <~ lift (first_batched y_cond) ;;
  ret (x_cond, y_cond).

(** ** Activations (lines 103-114) *)

(** [z[:, :n]]: the first [n] columns of every row. *)
Definition slice1 {A} (t : tensor A) (n : Z) : result (tensor A) :=
  match shape t with
  | d0 :: d1 :: rest =>
      let k := Z.min n d1 in
      let inner := numel_of rest in
      Ok (Tensor (d0 :: k :: rest)
            (flat_map
               (fun i => take (Z.to_nat (k * inner))
                           (drop (i * Z.to_nat (d1 * inner))%nat (data t)))
               (seq 0 (Z.to_nat d0))))
  | _ => Raise IndexError
  end.

Definition get_final_activations {Labels} (top_prior : Prior Labels)
    (z : tensor Z) (x_cond y_cond : tensor Q) : M (tensor Q) :=
  x <~ lift (slice1 z T) ;;
  _ <~ set_only_encode true ;;
  ret (forward top_prior true x x_cond y_cond).

(** ** The per-file pipeline (lines 117-147) *)

Section Pipeline.
Context {Labels : Type}.
Variable lr : Librosa.
Variable vqvae : VQVAE.
Variable top_prior : Prior Labels.

(** Lines 124-134: the tokens and the conditioning of one input. *)
Definition tokens_and_conditioning (audio : tensor Q) (sr : Z)
  : M (tensor Z * (tensor Q * tensor Q)) :=
  audio <~ lift (preprocess_audio lr audio sr) ;;
  audio <~ lift (zero_padding audio) ;;
  z <~ lift (get_z vqvae audio) ;;
  cond <~ get_cond top_prior ;;
  ret (z, cond).

Definition get_acts_from_array (audio : tensor Q) (sr : Z) (meanpool : Z)
  : M (tensor Q) :=
  zc <~ tokens_and_conditioning audio sr ;;
  acts <~ get_final_activations top_prior (fst zc) (fst (snd zc)) (snd (snd zc)) ;;
  lift (pool_activations acts meanpool).

Definition get_acts_from_file (fpath : string * string) (meanpool : Z)
  : M (tensor Q) :=
  audio <~ lift (load_audio_from_file lr fpath) ;;
  get_acts_from_array audio JUKEBOX_SAMPLE_RATE meanpool.

Definition embed_from_array (audio : tensor Q) (sr : Z) (average_pool_slices : Z)
  : M (tensor Q) :=
  get_acts_from_array audio sr average_pool_slices.
End Pipeline.

(** ** The batch driver (lines 150-218) *)

(** [s.endswith(suffix)]. *)
Definition endswith (s suffix : string) : bool :=
  String.prefix (String.rev suffix) (String.rev s).

(** pathlib's [stem]: the name without its last suffix; a dot that starts
    or ends the name does not begin a suffix. *)
Definition stem (name : string) : string :=
  match String.index 0 "." (String.rev name) with
  | Some j =>
      let len := String.length name in
      if ((0 <? j) && (j <? len - 1))%nat
      then String.substring 0 (len - 1 - j) name
      else name
  | None => name
  end.

(** [pathlib.Path(output_dir, f"{input_path.stem}.npy")]. *)
Definition output_path_of (output_dir name : string) : string * string :=
  (output_dir, (stem name ++ ".npy")%string).

(** The bundle that load_vqvae_and_prior builds (lines 161-168). *)
Definition loaded_hps : gmap string hval :=
  <["hop_fraction" := HFloats [1 # 2; 1 # 2; 1 # 8]%Q]>
  (<["levels" := HInt 3]>
  (<["name" := HStr "samples"]>
  (<["n_samples" := HInt 8]>
  (<["sr" := HInt 44100]> ∅)))).

(** load_vqvae_and_prior: the models are the collaborators of the run; a
    freshly made prior has [only_encode] off.  Building the models can fail
    (a checkpoint that is missing, a device without memory); such a run
    never reaches the loop and is not modelled: the statements below about
    a run are about runs whose models were loaded. *)
Definition load_vqvae_and_prior : M unit :=
  _ <~ set_hps loaded_hps ;;
  set_only_encode false.

(** [os.path.exists(str(p))]. *)
Definition path_exists (p : string * string) : M bool :=
  fun w => (Ok (bool_decide (is_Some (files w !! p))), w).

(** [np.load(p)]; the driver drops the array it returns. *)
Definition np_load (p : string * string) : M (tensor Q) :=
  _ <~ record (Call_np_load p) ;;
  fun w => match files w !! p with
           | Some arr => (Ok arr, w)
           | None => (Raise (FileNotFoundError p), w)
           end.

(** [np.save(p, arr)] when the write goes through.  A write that fails
    (an output directory that does not exist, a full disk) raises in numpy
    and is not modelled: the statements below about saved files are about
    runs whose writes went through. *)
Definition np_save (p : string * string) (arr : tensor Q) : M unit :=
  _ <~ record (Call_np_save p arr) ;;
  fun w => (Ok tt, {| hps := hps w; only_encode := only_encode w;
                      files := <[p := arr]> (files w); history := history w |}).

Definition USING_CACHED_FILE : bool := false.

Section Driver.
Context {Labels : Type}.
Variable lr : Librosa.
Variable vqvae : VQVAE.
Variable top_prior : Prior Labels.

(** The body of the loop of embed_from_folder (lines 205-218) for one
    input file, with the cache flag as a parameter; [continue] ends it. *)
Definition embed_one (using_cached_file : bool) (input_dir output_dir : string)
    (average_pool_slices : Z) (name : string) : M unit :=
  let output_path := output_path_of output_dir name in
  found <~ path_exists output_path ;;
  if found && using_cached_file then
    _ <~ np_load output_path ;;
    ret tt
  else
    _ <~ record (Call_get_acts_from_file (input_dir, name)) ;;
    representation <~
      get_acts_from_file lr vqvae top_prior (input_dir, name) average_pool_slices ;;
    np_save output_path representation.

(** The loop (line 204) over the names of the input files. *)
Fixpoint embed_loop (using_cached_file : bool) (input_dir output_dir : string)
    (average_pool_slices : Z) (input_names : list string) : M unit :=
  match input_names with
  | [] => ret tt
  | name :: rest =>
      _ <~ embed_one using_cached_file input_dir output_dir average_pool_slices name ;;
      embed_loop using_cached_file input_dir output_dir average_pool_slices rest
  end.

(** The input files of a run: the directory listing, sorted, restricted to
    the names that end in [.wav] (lines 198-200). *)
Definition wav_inputs (listing : list string) : list string :=
  List.filter (fun x => endswith x ".wav") (merge_sort String.le listing).

(** embed_from_folder; [listing] is what [input_dir.iterdir()] yields. *)
Definition embed_from_folder (listing : list string) (input_dir output_dir : string)
    (average_pool_slices : Z) : M unit :=
  let input_paths := wav_inputs listing in
  _ <~ load_vqvae_and_prior ;;
  embed_loop USING_CACHED_FILE input_dir output_dir average_pool_slices input_paths.
End Driver.

(** ** Vocabulary of the statements *)

(** The output of the pooling of a buffer [d] read as [m] windows of [w]
    rows of width [h]. *)
Definition window_means (d : list Q) (m w h : Z) : tensor Q :=
  Tensor [m; h]
    (flat_map
       (fun o => map (fun i => Qmean (lane d (Z.to_nat w) (Z.to_nat h) o i))
                   (seq 0 (Z.to_nat h)))
       (seq 0 (Z.to_nat m))).

(** [p] is the largest absolute value in [l]. *)
Definition max_abs_is (l : list Q) (p : Q) : Prop :=
  (exists x, In x l /\ Qabs x == p)%Q /\ (forall x, In x l -> Qabs x <= p)%Q.

Definition silent (l : list Q) : Prop := Forall (fun x => x == 0)%Q l.

Definition audible (l : list Q) : Prop := exists x, In x l /\ ~ (x == 0)%Q.

(** The audio that get_acts_from_file hands to the tokeniser: decoded,
    preprocessed by load_audio_from_file, preprocessed again by
    get_acts_from_array, and padded. *)
Definition audio_for_tokenizer (lr : Librosa) (fpath : string * string)
  : result (tensor Q) :=
  audio <- load_audio_from_file lr fpath ;;
  audio <- preprocess_audio lr audio JUKEBOX_SAMPLE_RATE ;;
  zero_padding audio.

(** The world after one more driver call. *)
Definition after_call (w : World) (c : call) : World :=
  {| hps := hps w; only_encode := only_encode w;
     files := files w; history := history w ++ [c] |}.

(** The world after [np.save(p, arr)]. *)
Definition after_save (w : World) (p : string * string) (arr : tensor Q) : World :=
  {| hps := hps w; only_encode := only_encode w;
     files := <[p := arr]> (files w);
     history := history w ++ [Call_np_save p arr] |}.

(** The bundle after [hps.sample_length = v]. *)
Definition with_sample_length (w : World) (v : Z) : World :=
  {| hps := <["sample_length" := HInt v]> (hps w); only_encode := only_encode w;
     files := files w; history := history w |}.

(** Lines 82-100 of get_cond as a function of the two numbers they read. *)
Definition conditioning {Labels} (top_prior : Prior Labels) (sample_length n_samples : Z)
  : result (tensor Q * tensor Q) :=
  let metas :=
    repeat {| artist := "unknown"; genre := "unknown";
              total_length := sample_length; offset := 0;
              lyrics := "lyrics go here!!!" |} (Z.to_nat n_samples) in
  let labels := get_batch_labels top_prior metas in
  let '(x_cond, y_cond, prime) := prior_get_cond top_prior (get_y top_prior labels 0) in
  x_cond <- first_rows_batched x_cond ;;
  y_cond <- first_batched y_cond ;;
  Ok (x_cond, y_cond).

(** A computation that touches neither the files nor the history. *)
Definition keeps_disk {A} (m : M A) : Prop :=
  forall w, files (snd (m w)) = files w /\ history (snd (m w)) = history w.

(** A computation that writes no field of the bundle but [sample_length]. *)
Definition writes_only_sample_length {A} (m : M A) : Prop :=
  forall w field, field <> "sample_length" -> hps (snd (m w)) !! field = hps w !! field.

(** The calls of a run without cache hits: one pipeline call and one save
    per input, in order. *)
Definition driver_calls (input_dir output_dir : string)
    (done : list (string * tensor Q)) : list call :=
  flat_map (fun nr => [Call_get_acts_from_file (input_dir, fst nr);
                       Call_np_save (output_path_of output_dir (fst nr)) (snd nr)])
           done.

(** The value of a result, [dflt] for a raised exception. *)
Definition value_of {A} (dflt : A) (r : result A) : A :=
  match r with
  | Ok a => a
  | Raise _ => dflt
  end.

(** The readings of the sentences that the code does not satisfy. *)

(** "Every input with a nonzero peak comes out with peak 1, every all-zero
    input comes out all-zero", for the input of preprocess_audio. *)
Definition peak_claim_on_inputs (lr : Librosa) (sr : Z) : Prop :=
  forall audio : tensor Q,
    well_formed audio -> (ndim audio = 1 \/ ndim audio = 2) ->
    (audible (data audio) ->
       exists out, preprocess_audio lr audio sr = Ok out /\ max_abs_is (data out) 1)
    /\ (silent (data audio) ->
          exists out, preprocess_audio lr audio sr = Ok out /\ silent (data out)).

(** "Pooling succeeds exactly for the divisors of 8192, and every
    non-divisor fails the assertion", for every integer window count. *)
Definition divisor_claim_on_integers (acts : tensor Q) : Prop :=
  forall m : Z,
    (is_ok (pool_activations acts m) = true <-> (m | 8192))
    /\ (~ (m | 8192) ->
          pool_activations acts m = Raise (AssertionError meanpool_message))
    /\ ((m | 8192) ->
          pool_activations acts m <> Raise (AssertionError meanpool_message)).

(** "With the cache flag on and the output present, the pipeline still
    runs for that file." *)
Definition cache_hit_recomputes {Labels} (lr : Librosa) (vqvae : VQVAE)
    (top_prior : Prior Labels) : Prop :=
  forall (input_dir output_dir name : string) (rest : list string)
         (average_pool_slices : Z) (w : World),
    is_Some (files w !! output_path_of output_dir name) ->
    In (Call_get_acts_from_file (input_dir, name))
       (history (snd (embed_loop lr vqvae top_prior true input_dir output_dir
                        average_pool_slices (name :: rest) w))).

(** ** Concrete collaborators and inputs *)

(** librosa when the file already has the target rate: [lr.resample]
    returns its input, and every file decodes to four mono samples. *)
Definition same_rate_librosa : Librosa :=
  {| lr_resample := fun y _ _ => y;
     lr_load := fun _ _ => Ok (Tensor [4] [1; -1; 1 # 2; 0]%Q) |}.

(** An encoder whose coarsest level always has 8192 tokens. *)
Definition long_vqvae : VQVAE :=
  {| encode := fun _ => [Tensor [1; 8192] (repeat 7 (Z.to_nat 8192))] |}.

(** An encoder whose coarsest level always has 100 tokens. *)
Definition short_vqvae : VQVAE :=
  {| encode := fun _ => [Tensor [1; 100] (repeat 7 (Z.to_nat 100))] |}.

(** A prior with 128 samples per token and two rows of activations. *)
Definition small_prior : Prior nat :=
  {| raw_to_tokens := 128;
     get_batch_labels := fun metas => length metas;
     get_y := fun labels start => Tensor [Z.of_nat labels; 1] (repeat start labels);
     prior_get_cond := fun y =>
       (Tensor [8; 2; 1] (repeat 0%Q 16), Tensor [8; 1] (repeat 0%Q 8), Tensor [0] []);
     forward := fun _ _ _ _ => Tensor [1; 2; 4800] (repeat 1%Q (Z.to_nat 9600)) |}.

Definition empty_world : World :=
  {| hps := ∅; only_encode := false; files := ∅; history := [] |}.

(** A run directory in which [track1.npy] is already present. *)
Definition world_with_track1 : World :=
  {| hps := loaded_hps; only_encode := false;
     files := {[ ("out", "track1.npy") := Tensor [1; 1] [5%Q] ]};
     history := [] |}.

(** Two channels in opposite phase. *)
Definition antiphase_stereo : tensor Q := Tensor [2; 2] [1; -1; -1; 1]%Q.

Definition loud_stereo : tensor Q := Tensor [2; 2] [1; -1; 3; 1]%Q.

Definition short_mono : tensor Q := Tensor [2] [1; 1 # 2]%Q.

Definition full_length_mono : tensor Q :=
  Tensor [SAMPLE_LENGTH] (repeat 0%Q (Z.to_nat SAMPLE_LENGTH)).

(** An activation tensor of the pipeline's shape, filled with one value. *)
Definition constant_acts (c : Q) : tensor Q :=
  Tensor [8192; 4800] (repeat c (Z.to_nat (8192 * 4800))).

(** What [same_rate_librosa] decodes, preprocessed twice and padded. *)
Definition padded_four_samples : tensor Q :=
  Tensor [SAMPLE_LENGTH]
    ([1; -1; 1 # 2; 0]%Q ++ repeat 0%Q (Z.to_nat (SAMPLE_LENGTH - 4))).

(** ** Further vocabulary and inputs *)

(** Activations as the prior returns them: a batch axis of size 1, two
    rows, 4800 columns. *)
Definition two_row_acts : tensor Q :=
  Tensor [1; 2; 4800] (repeat 1%Q (Z.to_nat 9600)).

(** Twenty-five seconds of silence, and the same followed by one more
    sample. *)
Definition silence_25s : tensor Q :=
  Tensor [JUKEBOX_SAMPLE_RATE * 25] (repeat 0%Q (Z.to_nat (JUKEBOX_SAMPLE_RATE * 25))).

Definition silence_25s_and_a_click : tensor Q :=
  Tensor [JUKEBOX_SAMPLE_RATE * 25 + 1]
    (repeat 0%Q (Z.to_nat (JUKEBOX_SAMPLE_RATE * 25)) ++ [1%Q]).

(** An encoder that returns no level at all. *)
Definition levelless_vqvae : VQVAE := {| encode := fun _ => [] |}.

(** The world with the prior's flag set. *)
Definition with_only_encode (w : World) (b : bool) : World :=
  {| hps := hps w; only_encode := b; files := files w; history := history w |}.

(** A prior whose [raw_to_tokens] is zero. *)
Definition broken_prior : Prior nat :=
  {| raw_to_tokens := 0;
     get_batch_labels := get_batch_labels small_prior;
     get_y := get_y small_prior;
     prior_get_cond := prior_get_cond small_prior;
     forward := forward small_prior |}.

(** A bundle without [n_samples]. *)
Definition world_without_n_samples : World :=
  {| hps := <["sr" := HInt 44100]> ∅; only_encode := false;
     files := ∅; history := [] |}.

(** The state right after load_vqvae_and_prior, with nothing on disk. *)
Definition fresh_world : World :=
  {| hps := loaded_hps; only_encode := false; files := ∅; history := [] |}.

(** What get_acts_from_file returns for a file processed on its own, right
    after the models are loaded. *)
Definition embedding_of {Labels} (lr : Librosa) (vqvae : VQVAE)
    (top_prior : Prior Labels) (fpath : string * string) (meanpool : Z)
  : result (tensor Q) :=
  fst (get_acts_from_file lr vqvae top_prior fpath meanpool fresh_world).

(** ** Arrays as objects (lines 26-41 on a store of buffers)

    The value model above gives preprocess_audio a fresh value per use.
    numpy arrays are objects: [audio[np.newaxis]] is a view on the buffer of
    [audio], [audio /= norm_factor] writes into the buffer of [audio], and
    [lr.resample] may hand back its argument.  Here an array is a buffer in
    a store together with the shape it is viewed under. *)

Record array_ref : Type := ArrayRef { buffer : nat; view_shape : list Z }.

Definition ST (A : Type) : Type :=
  gmap nat (list Q) -> result A * gmap nat (list Q).

Definition retS {A} (a : A) : ST A := fun s => (Ok a, s).
Definition liftS {A} (r : result A) : ST A := fun s => (r, s).
Definition bindS {A B} (m : ST A) (k : A -> ST B) : ST B :=
  fun s => match m s with
           | (Ok a, s') => k a s'
           | (Raise e, s') => (Raise e, s')
           end.

Notation "x <% m ;; k" := (bindS m (fun x => k))
  (at level 100, m at next level, right associativity).

(** The value of an array: its buffer under its shape. *)
Definition read (s : gmap nat (list Q)) (a : array_ref) : option (tensor Q) :=
  Tensor (view_shape a) <$> s !! buffer a.

Definition deref (a : array_ref) : ST (tensor Q) :=
  fun s => match read s a with
           | Some t => (Ok t, s)
           | None => (Raise (RuntimeError "no such buffer"), s)
           end.

(** A new array with the given value, in a buffer that no array uses. *)
Definition alloc (t : tensor Q) : ST array_ref :=
  fun s => let b := fresh (dom s) in
           (Ok (ArrayRef b (shape t)), <[b := data t]> s).

(** [a /= c]: the buffer of [a] is overwritten. *)
Definition divide_in_place (a : array_ref) (c : Q) : ST unit :=
  v <% deref a ;;
  fun s => (Ok tt, <[buffer a := data (np_div_scalar v c)]> s).

Definition ndim_ref (a : array_ref) : Z := Z.of_nat (length (view_shape a)).

(** [a[np.newaxis]]: a view on the same buffer. *)
Definition newaxis_ref (a : array_ref) : array_ref :=
  ArrayRef (buffer a) (1 :: view_shape a).

(** [lr.resample] on objects: [returns_argument] says when the resampler
    hands back the array it was given (librosa does at equal rates);
    otherwise the result is a new array. *)
Definition resample_ref (lr : Librosa) (returns_argument : tensor Q -> Z -> Z -> bool)
    (a : array_ref) (orig target : Z) : ST array_ref :=
  v <% deref a ;;
  if returns_argument v orig target then retS a
  else alloc (lr_resample lr v orig target).

(** Lines 30-41 on objects: the view, the channel average in a new array,
    the division in place on that new array, the flattened copy. *)
Definition mix_and_normalize_ref (audio : array_ref) : ST array_ref :=
  let audio := if ndim_ref audio =? 1 then newaxis_ref audio else audio in
  if ndim_ref audio =? 2 then
    v <% deref audio ;;
    m <% liftS (mean_dim v 0) ;;
    audio <% alloc m ;;
    v <% deref audio ;;
    norm_factor <% liftS (np_max (np_abs v)) ;;
    _ <% (if Qgt0 norm_factor then divide_in_place audio norm_factor else retS tt) ;;
    v <% deref audio ;;
    alloc (flatten v)
  else liftS (Raise (AssertionError ndim_message)).

(** preprocess_audio (lines 26-41) on objects. *)
Definition preprocess_audio_ref (lr : Librosa)
    (returns_argument : tensor Q -> Z -> Z -> bool)
    (audio : array_ref) (sr : Z) : ST array_ref :=
  audio <% resample_ref lr returns_argument audio sr JUKEBOX_SAMPLE_RATE ;;
  mix_and_normalize_ref audio.

(** The channel averages of a buffer read as [c] channels of [n] samples. *)
Definition channel_means (d : list Q) (c n : Z) : list Q :=
  map (fun j => Qmean (map (fun k => nth (Z.to_nat (k * n + j)) d 0%Q) (range c)))
      (range n).

(** [out] is [m] divided by its peak, or [m] itself when the peak is not
    positive. *)
Definition peak_normalised (m out : list Q) : Prop :=
  exists p, (exists x, In x m /\ Qabs x = p) /\ (forall x, In x m -> Qabs x <= p)%Q
            /\ out = if Qgt0 p then map (fun x => (x / p)%Q) m else m.

(** A store with one stereo array in buffer 0. *)
Definition store_with_loud_stereo : gmap nat (list Q) :=
  {[ 0%nat := [1; -1; 3; 1]%Q ]}.

(** librosa at the target rate when one file of the folder cannot be
    decoded: every other file decodes to four mono samples. *)
Definition librosa_with_unreadable (bad : string) : Librosa :=
  {| lr_resample := fun y _ _ => y;
     lr_load := fun p _ =>
       if decide (snd p = bad) then Raise (RuntimeError "cannot decode")
       else Ok (Tensor [4] [1; -1; 1 # 2; 0]%Q) |}.

(** * Properties *)

(** ** Names and paths *)

Example stem_of_wav : stem "track1.wav" = "track1".
Proof. reflexivity. Qed.

Example stem_keeps_inner_dots : stem "a.b.wav" = "a.b".
Proof. reflexivity. Qed.

Example stem_of_bare_suffix : stem ".wav" = ".wav".
Proof. reflexivity. Qed.

Example output_path_of_track :
  output_path_of "out" "track1.wav" = ("out", "track1.npy").
Proof. reflexivity. Qed.

Example wav_inputs_sorts_and_filters :
  wav_inputs ["b.wav"; "a.wav"; "c.txt"; "B.wav"; "wav"] = ["B.wav"; "a.wav"; "b.wav"].
Proof. vm_compute. reflexivity. Qed.

Example loaded_hps_sr : loaded_hps !! "sr" = Some (HInt 44100).
Proof. reflexivity. Qed.

(** ** Lists laid out as grids *)

Lemma flat_map_grid_length {B} (f : nat -> nat -> B) (inner outer s : nat) :
  length (flat_map (fun o => map (f o) (seq 0 inner)) (seq s outer))
  = (outer * inner)%nat.
Proof.
  revert s. induction outer as [|outer IH]; intros s; simpl; [reflexivity|].
  rewrite length_app, length_map, length_seq, IH. reflexivity.
Qed.

Lemma nth_flat_map_grid_from {B} (f : nat -> nat -> B) (d : B) (inner outer s o i : nat) :
  (o < outer)%nat -> (i < inner)%nat ->
  nth (o * inner + i) (flat_map (fun o => map (f o) (seq 0 inner)) (seq s outer)) d
  = f (s + o)%nat i.
Proof.
  revert s o. induction outer as [|outer IH]; intros s o Ho Hi; [lia|].
  simpl. destruct o as [|o].
  - rewrite app_nth1 by (rewrite length_map, length_seq; simpl; lia).
    simpl. rewrite Nat.add_0_r.
    rewrite (nth_indep _ d (f s 0%nat)) by (rewrite length_map, length_seq; lia).
    rewrite (map_nth (f s)), seq_nth by lia. reflexivity.
  - rewrite app_nth2 by (rewrite length_map, length_seq; simpl; lia).
    rewrite length_map, length_seq.
    replace (S o * inner + i - inner)%nat with (o * inner + i)%nat by (simpl; lia).
    rewrite IH by lia. f_equal. lia.
Qed.

Lemma nth_flat_map_grid {B} (f : nat -> nat -> B) (d : B) (inner outer o i : nat) :
  (o < outer)%nat -> (i < inner)%nat ->
  nth (o * inner + i) (flat_map (fun o => map (f o) (seq 0 inner)) (seq 0 outer)) d
  = f o i.
Proof. intros Ho Hi. rewrite nth_flat_map_grid_from by assumption. reflexivity. Qed.

(** ** Reshaping into windows *)

Lemma infer_scan_windows (m h : Z) :
  0 < m -> 0 < h -> infer_scan [m; -1; h] 1 false = Ok (1 * m * h, true).
Proof.
  intros Hm Hh. simpl.
  destruct (Z.eqb_spec m (-1)); [lia|].
  destruct (Z.leb_spec 0 m); [|lia].
  destruct (Z.eqb_spec h (-1)); [lia|].
  destruct (Z.leb_spec 0 h); [|lia].
  reflexivity.
Qed.

Lemma view_windows {A} (t : tensor A) (n h m : Z) :
  numel t = n * h -> 0 < m -> 0 < h -> n mod m = 0 ->
  view t [m; -1; h] = Ok (Tensor [m; n / m; h] (data t)).
Proof.
  intros Hn Hm Hh Hdiv. unfold view, infer_size.
  rewrite infer_scan_windows by assumption. cbn [bind].
  assert (Hq : n * h = (n / m) * (1 * m * h)).
  { pose proof (Z.div_mod n m ltac:(lia)) as E. rewrite Hdiv, Z.add_0_r in E. nia. }
  assert (Hpos : 0 < 1 * m * h) by nia.
  rewrite Hn.
  assert ((n * h) mod (1 * m * h) = 0) as Hmod.
  { rewrite Hq. apply Z.mod_mul. lia. }
  rewrite Hmod.
  destruct (Z.ltb_spec 0 (1 * m * h)); [|lia].
  cbn [andb]. rewrite Z.eqb_refl, orb_true_r.
  destruct (Z.eqb_spec (1 * m * h) 0); [lia|].
  cbn [map].
  destruct (Z.eqb_spec m (-1)); [lia|].
  destruct (Z.eqb_spec h (-1)); [lia|].
  rewrite Z.eqb_refl.
  replace (n * h / (1 * m * h)) with (n / m); [reflexivity|].
  rewrite Hq at 1. rewrite Z.div_mul by lia. reflexivity.
Qed.

(** ** Averaging the middle axis *)

Lemma mean_dim_windows (d : list Q) (m w h : Z) :
  mean_dim (Tensor [m; w; h] d) 1 = Ok (window_means d m w h).
Proof.
  unfold mean_dim, window_means. cbn [shape data lookup list_lookup take drop app numel_of foldr].
  rewrite !Z.mul_1_r. reflexivity.
Qed.

Lemma window_means_length (d : list Q) (m w h : Z) :
  0 <= m -> 0 <= h ->
  Z.of_nat (length (data (window_means d m w h))) = m * h.
Proof.
  intros Hm Hh. unfold window_means. cbn [data].
  rewrite (flat_map_grid_length
             (fun o i => Qmean (lane d (Z.to_nat w) (Z.to_nat h) o i))).
  lia.
Qed.

Lemma window_means_item (d : list Q) (m w h i j : Z) :
  0 <= w -> 0 <= i < m -> 0 <= j < h ->
  item2 0%Q (window_means d m w h) i j
  = Qmean (map (fun k => nth (Z.to_nat ((w * i + k) * h + j)) d 0%Q) (range w)).
Proof.
  intros Hw Hi Hj. unfold item2, window_means. cbn [shape data nth].
  replace (Z.to_nat (i * h + j)) with (Z.to_nat i * Z.to_nat h + Z.to_nat j)%nat by nia.
  rewrite (nth_flat_map_grid
             (fun o i => Qmean (lane d (Z.to_nat w) (Z.to_nat h) o i))) by lia.
  f_equal. unfold lane, range. rewrite map_map.
  apply map_ext. intros k. f_equal. nia.
Qed.

(** ** Pooling *)

Lemma squeeze_acts_shape (acts : tensor Q) :
  shape acts = [8192; 4800] -> squeeze acts = acts.
Proof.
  intros H. destruct acts as [s d]. cbn in H. subst s. reflexivity.
Qed.

Lemma pool_activations_windows (acts : tensor Q) (m : Z) :
  shape acts = [8192; 4800] -> 0 < m -> 8192 mod m = 0 ->
  pool_activations acts m = Ok (window_means (data acts) m (8192 / m) 4800).
Proof.
  intros Hs Hm Hdiv. unfold pool_activations.
  rewrite (squeeze_acts_shape acts Hs).
  unfold size. rewrite Hs. cbn [lookup list_lookup bind].
  unfold py_mod. destruct (Z.eqb_spec m 0); [lia|]. cbn [bind].
  rewrite Hdiv. cbn [Z.eqb].
  rewrite (view_windows acts 8192 4800 m); [| unfold numel; rewrite Hs; reflexivity | lia | lia | assumption].
  cbn [bind]. apply mean_dim_windows.
Qed.

(** C1.  On an activation tensor of shape (8192, 4800), pooling with 32
    windows returns a tensor of shape (32, 4800) whose row [i] is, column by
    column, the arithmetic mean of rows [256*i .. 256*i+255] of the input;
    and for every positive [m] that divides 8192 it returns a tensor of
    shape (m, 4800) whose row [i] is the mean of the [8192/m] consecutive
    input rows that start at row [(8192/m)*i]. *)
Theorem pooling_rows_are_window_means (acts : tensor Q) :
  shape acts = [8192; 4800] -> well_formed acts ->
  (exists out,
      pool_activations acts 32 = Ok out /\ shape out = [32; 4800] /\
      well_formed out /\
      forall i j, 0 <= i < 32 -> 0 <= j < 4800 ->
        item2 0%Q out i j
        = Qmean (map (fun k => item2 0%Q acts (256 * i + k) j) (range 256)))
  /\
  (forall m, 0 < m -> 8192 mod m = 0 ->
    exists out,
      pool_activations acts m = Ok out /\ shape out = [m; 4800] /\
      well_formed out /\
      forall i j, 0 <= i < m -> 0 <= j < 4800 ->
        item2 0%Q out i j
        = Qmean (map (fun k => item2 0%Q acts (8192 / m * i + k) j)
                   (range (8192 / m)))).
Proof.
  intros Hs Hwf.
  assert (G : forall m, 0 < m -> 8192 mod m = 0 ->
    exists out,
      pool_activations acts m = Ok out /\ shape out = [m; 4800] /\
      well_formed out /\
      forall i j, 0 <= i < m -> 0 <= j < 4800 ->
        item2 0%Q out i j
        = Qmean (map (fun k => item2 0%Q acts (8192 / m * i + k) j)
                   (range (8192 / m)))).
  { intros m Hm Hdiv. exists (window_means (data acts) m (8192 / m) 4800).
    split; [apply pool_activations_windows; assumption|].
    split; [reflexivity|].
    split.
    - split.
      + cbn [window_means shape]. repeat constructor; lia.
      + rewrite window_means_length by lia.
        unfold numel. cbn [window_means shape numel_of foldr]. lia.
    - intros i j Hi Hj.
      rewrite window_means_item by (try lia; apply Z.div_pos; lia).
      f_equal. apply map_ext. intros k.
      unfold item2. rewrite Hs. cbn [nth]. reflexivity. }
  split; [|exact G].
  destruct (G 32 ltac:(lia) ltac:(reflexivity)) as (out & H1 & H2 & H3 & H4).
  exists out. split; [exact H1|]. split; [exact H2|]. split; [exact H3|].
  exact H4.
Qed.

Lemma constant_acts_well_formed (c : Q) : well_formed (constant_acts c).
Proof.
  split.
  - cbn [constant_acts shape]. repeat constructor; lia.
  - cbn [constant_acts data]. rewrite repeat_length, Z2Nat.id by lia. reflexivity.
Qed.

Lemma pooling_rows_are_window_means_witness :
  (exists out, pool_activations (constant_acts 1) 32 = Ok out /\ shape out = [32; 4800])
  /\ (exists out, pool_activations (constant_acts 1) 64 = Ok out /\ shape out = [64; 4800]).
Proof.
  destruct (pooling_rows_are_window_means (constant_acts 1) eq_refl
              (constant_acts_well_formed 1)) as [(out & H1 & H2 & _) G].
  split; [exists out; split; assumption|].
  destruct (G 64 ltac:(lia) eq_refl) as (out' & H1' & H2' & _).
  exists out'. split; assumption.
Defined.

(** A small run of the window arithmetic: four rows pooled into two. *)
Example window_means_of_four_rows :
  data (window_means (map inject_Z (range 12)) 2 2 3)
  = [3 # 2; 5 # 2; 7 # 2; 15 # 2; 17 # 2; 19 # 2]%Q.
Proof. vm_compute. reflexivity. Qed.

Lemma pool_activations_guard (acts : tensor Q) (m : Z) :
  shape acts = [8192; 4800] ->
  pool_activations acts m =
    if m =? 0 then Raise ZeroDivisionError
    else if 8192 mod m =? 0 then
      acts' <- view acts [m; -1; 4800] ;; mean_dim acts' 1
    else Raise (AssertionError meanpool_message).
Proof.
  intros Hs. unfold pool_activations.
  rewrite (squeeze_acts_shape acts Hs).
  unfold size. rewrite Hs. cbn [lookup list_lookup bind].
  unfold py_mod. destruct (m =? 0); reflexivity.
Qed.

Lemma view_negative_windows {A} (t : tensor A) (m h : Z) :
  m < 0 -> is_ok (view t [m; -1; h]) = false.
Proof.
  intros Hm. unfold view, infer_size. cbn [infer_scan].
  destruct (Z.eqb_spec m (-1)) as [->|Hne].
  - reflexivity.
  - destruct (Z.leb_spec 0 m); [lia|]. reflexivity.
Qed.

Lemma divides_8192_mod (m : Z) : m <> 0 -> ((m | 8192) <-> 8192 mod m = 0).
Proof. intros Hm. symmetry. apply Z.mod_divide. assumption. Qed.

Lemma zero_does_not_divide_8192 : ~ (0 | 8192).
Proof. intros [k Hk]. lia. Qed.

(** C5, as amended.  On an (8192, 4800) activation tensor the pooling step
    succeeds exactly for the positive divisors of 8192; every nonzero window
    count that does not divide 8192 fails the assertion; for every divisor
    the assertion passes. *)
Theorem pooling_valid_for_positive_divisors (acts : tensor Q) (m : Z) :
  shape acts = [8192; 4800] -> well_formed acts ->
  (is_ok (pool_activations acts m) = true <-> 0 < m /\ (m | 8192))
  /\ (m <> 0 -> ~ (m | 8192) ->
        pool_activations acts m = Raise (AssertionError meanpool_message))
  /\ ((m | 8192) ->
        pool_activations acts m <> Raise (AssertionError meanpool_message)).
Proof.
  intros Hs _. rewrite (pool_activations_guard acts m Hs).
  destruct (Z.eqb_spec m 0) as [->|Hm0].
  - split; [|split].
    + split; [discriminate|]. intros [? _]. lia.
    + intros H. contradiction.
    + intros _. discriminate.
  - pose proof (divides_8192_mod m Hm0) as Hd.
    destruct (Z.eqb_spec (8192 mod m) 0) as [Hmod|Hmod].
    + split; [|split].
      * destruct (Z.lt_trichotomy m 0) as [Hneg|[?|Hpos]]; [|lia|].
        -- pose proof (view_negative_windows acts m 4800 Hneg) as Hv.
           destruct (view acts [m; -1; 4800]); [discriminate|].
           cbn [bind is_ok]. split; [discriminate|]. intros [? _]. lia.
        -- rewrite (view_windows acts 8192 4800 m);
             [| unfold numel; rewrite Hs; reflexivity | lia | lia | assumption].
           cbn [bind]. rewrite mean_dim_windows. cbn [is_ok].
           split; [intros _; split; [assumption | apply Hd; assumption] | reflexivity].
      * intros _ Hnd. exfalso. apply Hnd, Hd, Hmod.
      * intros _. destruct (view acts [m; -1; 4800]) as [a|e] eqn:Hv.
        -- cbn [bind]. unfold mean_dim. destruct (shape a !! 1%nat); discriminate.
        -- cbn [bind]. unfold view in Hv.
           destruct (infer_size [m; -1; 4800] (numel acts)) as [s|e'] eqn:Hi;
             [discriminate|]. cbn [bind] in Hv. injection Hv as <-.
           unfold infer_size in Hi.
           destruct (infer_scan [m; -1; 4800] 1 false) as [[ns inf]|e''] eqn:Hsc.
           ++ cbn [bind] in Hi.
              repeat match type of Hi with
                     | (if ?c then _ else _) = _ => destruct c
                     end; try discriminate; injection Hi as <-; discriminate.
           ++ cbn [bind] in Hi. injection Hi as <-.
              cbn [infer_scan] in Hsc.
              repeat match type of Hsc with
                     | (if ?c then _ else _) = _ => destruct c
                     end; try discriminate; injection Hsc as <-; discriminate.
    + split; [|split].
      * split; [discriminate|]. intros [_ Hdiv]. exfalso. apply Hmod, Hd, Hdiv.
      * intros _ _. reflexivity.
      * intros Hdiv. exfalso. apply Hmod, Hd, Hdiv.
Qed.

Lemma pooling_valid_for_positive_divisors_witness :
  (is_ok (pool_activations (constant_acts 1) 7) = true <-> 0 < 7 /\ (7 | 8192))
  /\ pool_activations (constant_acts 1) 7 = Raise (AssertionError meanpool_message)
  /\ pool_activations (constant_acts 1) 32 <> Raise (AssertionError meanpool_message).
Proof.
  destruct (pooling_valid_for_positive_divisors (constant_acts 1) 7 eq_refl
              (constant_acts_well_formed 1)) as (H1 & H2 & _).
  destruct (pooling_valid_for_positive_divisors (constant_acts 1) 32 eq_refl
              (constant_acts_well_formed 1)) as (_ & _ & H3).
  split; [exact H1|]. split.
  - apply H2; [lia|]. intros [k Hk]. lia.
  - apply H3. exists 256. reflexivity.
Defined.

(** C5, as stated, fails: a window count of 0 is not a divisor of 8192, and
    the modulo raises ZeroDivisionError before the assertion is reached. *)
Lemma divisor_claim_fails_at_zero :
  ~ (forall acts : tensor Q,
       shape acts = [8192; 4800] -> well_formed acts ->
       divisor_claim_on_integers acts).
Proof.
  intros H.
  destruct (H (constant_acts 1) eq_refl (constant_acts_well_formed 1) 0)
    as (_ & Hassert & _).
  specialize (Hassert zero_does_not_divide_8192).
  rewrite (pool_activations_guard (constant_acts 1) 0 eq_refl) in Hassert.
  discriminate Hassert.
Qed.

(** A negative divisor passes the assertion and fails in the reshape. *)
Lemma pooling_negative_divisor :
  pool_activations (constant_acts 1) (-2)
  = Raise (RuntimeError "invalid shape dimension").
Proof.
  rewrite (pool_activations_guard (constant_acts 1) (-2) eq_refl). reflexivity.
Qed.

(** ** Peak normalisation *)

Lemma Qmax_cases (x y : Q) : Qmax x y = x \/ Qmax x y = y.
Proof.
  unfold Qmax, GenericMinMax.gmax. destruct (x ?= y)%Q; auto.
Qed.

Lemma foldl_Qmax_In (l : list Q) (x : Q) : In (foldl Qmax x l) (x :: l).
Proof.
  revert x. induction l as [|y l IH]; intros x; [left; reflexivity|].
  cbn [foldl]. destruct (IH (Qmax x y)) as [H|H].
  - destruct (Qmax_cases x y) as [E|E].
    + left. rewrite <- H. symmetry. exact E.
    + right. left. rewrite <- H. symmetry. exact E.
  - right. right. exact H.
Qed.

Lemma foldl_Qmax_grows (l : list Q) (x : Q) : (x <= foldl Qmax x l)%Q.
Proof.
  revert x. induction l as [|y l IH]; intros x; cbn [foldl]; [apply Qle_refl|].
  eapply Qle_trans; [apply (Q.le_max_l x y) | apply IH].
Qed.

Lemma foldl_Qmax_upper (l : list Q) (x y : Q) :
  In y (x :: l) -> (y <= foldl Qmax x l)%Q.
Proof.
  revert x. induction l as [|z l IH]; intros x H.
  - destruct H as [->|[]]. apply Qle_refl.
  - cbn [foldl]. destruct H as [->|[->|H]].
    + eapply Qle_trans; [apply (Q.le_max_l y z) | apply foldl_Qmax_grows].
    + eapply Qle_trans; [apply (Q.le_max_r x y) | apply foldl_Qmax_grows].
    + apply IH. right. exact H.
Qed.

(** What [np.abs(t).max()] returns: an absolute value of the buffer that
    bounds all the others. *)
Lemma np_max_abs_spec (t : tensor Q) (p : Q) :
  np_max (np_abs t) = Ok p ->
  (exists x, In x (data t) /\ Qabs x = p) /\ (forall x, In x (data t) -> Qabs x <= p)%Q.
Proof.
  unfold np_max, np_abs. cbn [data].
  destruct (map Qabs (data t)) as [|a l] eqn:E; [discriminate|].
  intros [= <-]. split.
  - pose proof (foldl_Qmax_In l a) as H. rewrite <- E in H.
    apply in_map_iff in H. destruct H as (x & Hx & Hin). exists x. split; assumption.
  - intros x Hx. apply foldl_Qmax_upper. rewrite <- E. apply in_map. exact Hx.
Qed.

Lemma np_max_abs_total (t : tensor Q) :
  data t <> [] -> exists p, np_max (np_abs t) = Ok p.
Proof.
  intros H. unfold np_max, np_abs. cbn [data].
  destruct (data t) as [|a l]; [contradiction|]. cbn [map]. eexists. reflexivity.
Qed.

Lemma Qabs_zero_iff (x : Q) : (Qabs x == 0 <-> x == 0)%Q.
Proof.
  split; intros H.
  - apply Qle_antisym.
    + rewrite <- H. apply Qle_Qabs.
    + assert (Hle : (Qabs x <= 0)%Q) by (rewrite H; apply Qle_refl).
      apply Qabs_Qle_condition in Hle. destruct Hle as [Hl _]. exact Hl.
  - rewrite H. reflexivity.
Qed.

Lemma Qgt0_true (x : Q) : Qgt0 x = true <-> (0 < x)%Q.
Proof.
  unfold Qgt0. rewrite negb_true_iff. split; intros H.
  - apply Qnot_le_lt. intros Hle. apply Qle_bool_iff in Hle. congruence.
  - destruct (Qle_bool x 0) eqn:E; [|reflexivity].
    apply Qle_bool_iff in E. exfalso. apply (Qlt_not_le _ _ H E).
Qed.

Lemma normalize_audible (mono : tensor Q) :
  audible (data mono) ->
  exists p, (0 < p)%Q /\ np_max (np_abs mono) = Ok p /\
            normalize mono = Ok (flatten (np_div_scalar mono p)) /\
            max_abs_is (data (flatten (np_div_scalar mono p))) 1.
Proof.
  intros (x0 & Hin0 & Hnz).
  destruct (np_max_abs_total mono) as [p Hp].
  { intros E. rewrite E in Hin0. destruct Hin0. }
  destruct (np_max_abs_spec mono p Hp) as [(xm & Hxm & Hpm) Hub].
  assert (Hpos : (0 < p)%Q).
  { apply Qlt_le_trans with (Qabs x0); [|apply Hub; assumption].
    destruct (Qlt_le_dec 0 (Qabs x0)) as [?|Hle]; [assumption|].
    exfalso. apply Hnz. apply Qabs_zero_iff.
    apply Qle_antisym; [assumption | apply Qabs_nonneg]. }
  exists p. split; [assumption|]. split; [assumption|].
  assert (Hp0 : ~ (p == 0)%Q).
  { intros E. rewrite E in Hpos. apply (Qlt_irrefl _ Hpos). }
  split.
  - unfold normalize. rewrite Hp. cbn [bind].
    apply Qgt0_true in Hpos. rewrite Hpos. reflexivity.
  - cbn [flatten np_div_scalar data]. split.
    + exists (xm / p)%Q.
      split; [apply (in_map (fun x => (x / p)%Q)); assumption|].
      unfold Qdiv. rewrite Qabs_Qmult, Qabs_Qinv, Hpm.
      rewrite (Qabs_pos p) by (apply Qlt_le_weak; assumption).
      apply Qmult_inv_r. assumption.
    + intros y Hy. apply in_map_iff in Hy. destruct Hy as (x & <- & Hx).
      unfold Qdiv. rewrite Qabs_Qmult, Qabs_Qinv.
      rewrite (Qabs_pos p) by (apply Qlt_le_weak; assumption).
      apply Qle_shift_div_r; [assumption|]. rewrite Qmult_1_l. apply Hub. assumption.
Qed.

Lemma normalize_silent (mono : tensor Q) :
  data mono <> [] -> silent (data mono) -> normalize mono = Ok (flatten mono).
Proof.
  intros Hne Hs.
  destruct (np_max_abs_total mono Hne) as [p Hp].
  destruct (np_max_abs_spec mono p Hp) as [(xm & Hxm & Hpm) _].
  unfold normalize. rewrite Hp. cbn [bind].
  assert (Hz : (p == 0)%Q).
  { rewrite <- Hpm. apply Qabs_zero_iff.
    unfold silent in Hs. rewrite Forall_forall in Hs. apply Hs.
    apply list_elem_of_In. assumption. }
  destruct (Qgt0 p) eqn:E; [|reflexivity].
  apply Qgt0_true in E. rewrite Hz in E. exfalso. apply (Qlt_irrefl _ E).
Qed.

(** ** The downmix *)

Lemma mean_dim_channels (d : list Q) (C N : Z) :
  mean_dim (Tensor [C; N] d) 0
  = Ok (Tensor [N]
          (map (fun i => Qmean (lane d (Z.to_nat C) (Z.to_nat N) 0 i))
             (seq 0 (Z.to_nat N)))).
Proof.
  unfold mean_dim.
  cbn [shape data lookup list_lookup take drop app numel_of foldr].
  rewrite Z.mul_1_r. change (Z.to_nat 1) with 1%nat.
  cbn [seq flat_map]. rewrite app_nil_r. reflexivity.
Qed.

Lemma length_one_shape {A} (t : tensor A) : ndim t = 1 -> exists n, shape t = [n].
Proof.
  unfold ndim. destruct (shape t) as [|n [|? ?]]; cbn [length]; try lia.
  intros _. exists n. reflexivity.
Qed.

Lemma length_two_shape {A} (t : tensor A) :
  ndim t = 2 -> exists c n, shape t = [c; n].
Proof.
  unfold ndim. destruct (shape t) as [|c [|n [|? ?]]]; cbn [length]; try lia.
  intros _. exists c, n. reflexivity.
Qed.

(** The downmix of a resampled array of shape (N,) or (C, N) has N
    entries. *)
Lemma downmix_shape (lr : Librosa) (audio : tensor Q) (sr : Z) (mono : tensor Q) :
  downmix lr audio sr = Ok mono ->
  exists c n,
    (shape (lr_resample lr audio sr JUKEBOX_SAMPLE_RATE) = [n] /\ c = 1
     \/ shape (lr_resample lr audio sr JUKEBOX_SAMPLE_RATE) = [c; n])
    /\ shape mono = [n] /\ length (data mono) = Z.to_nat n.
Proof.
  unfold downmix. set (r := lr_resample lr audio sr JUKEBOX_SAMPLE_RATE).
  destruct (Z.eqb_spec (ndim r) 1) as [H1|H1].
  - destruct (length_one_shape r H1) as [n Hn].
    replace (newaxis r) with (Tensor [1; n] (data r))
      by (unfold newaxis; rewrite Hn; reflexivity).
    change (ndim (Tensor [1; n] (data r)) =? 2) with true. cbv iota.
    rewrite mean_dim_channels. intros [= <-].
    exists 1, n. split; [left; split; [assumption | reflexivity]|].
    split; [reflexivity|]. cbn [data]. rewrite length_map, length_seq. reflexivity.
  - destruct (Z.eqb_spec (ndim r) 2) as [H2|H2]; [|discriminate].
    destruct (length_two_shape r H2) as (c & n & Hcn).
    replace r with (Tensor [c; n] (data r)) at 1
      by (destruct r as [s d]; cbn in Hcn; subst s; reflexivity).
    rewrite mean_dim_channels. intros [= <-].
    exists c, n. split; [right; assumption|].
    split; [reflexivity|]. cbn [data]. rewrite length_map, length_seq. reflexivity.
Qed.

Lemma downmix_total (lr : Librosa) (audio : tensor Q) (sr : Z) :
  (ndim (lr_resample lr audio sr JUKEBOX_SAMPLE_RATE) = 1
   \/ ndim (lr_resample lr audio sr JUKEBOX_SAMPLE_RATE) = 2) ->
  exists mono, downmix lr audio sr = Ok mono.
Proof.
  unfold downmix. set (r := lr_resample lr audio sr JUKEBOX_SAMPLE_RATE).
  intros H. destruct (Z.eqb_spec (ndim r) 1) as [H1|H1].
  - destruct (length_one_shape r H1) as [n Hn].
    replace (newaxis r) with (Tensor [1; n] (data r))
      by (unfold newaxis; rewrite Hn; reflexivity).
    change (ndim (Tensor [1; n] (data r)) =? 2) with true. cbv iota.
    rewrite mean_dim_channels. eexists. reflexivity.
  - destruct (Z.eqb_spec (ndim r) 2) as [H2|H2]; [|lia].
    destruct (length_two_shape r H2) as (c & n & Hcn).
    unfold mean_dim. rewrite Hcn. cbn [lookup list_lookup]. eexists. reflexivity.
Qed.

Lemma normalize_shape (mono out : tensor Q) (n : Z) :
  shape mono = [n] -> length (data mono) = Z.to_nat n ->
  normalize mono = Ok out ->
  shape out = [n] /\ Z.of_nat (length (data out)) = n /\ 0 < n.
Proof.
  intros Hs Hl. unfold normalize.
  destruct (np_max (np_abs mono)) as [p|e] eqn:Hp; [|discriminate].
  cbn [bind]. intros [= <-].
  assert (Hpos : 0 < n).
  { unfold np_max, np_abs in Hp. cbn [data] in Hp.
    destruct (data mono) as [|a l]; [discriminate|]. cbn [length] in Hl. lia. }
  destruct (Qgt0 p); unfold flatten, numel, np_div_scalar; cbn [shape data];
    rewrite Hs; cbn [numel_of foldr]; rewrite Z.mul_1_r, ?length_map, Hl;
    (split; [reflexivity | split; [lia | assumption]]).
Qed.

Lemma downmix_nonempty (lr : Librosa) (audio : tensor Q) (sr : Z) (mono : tensor Q) :
  well_formed (lr_resample lr audio sr JUKEBOX_SAMPLE_RATE) ->
  numel (lr_resample lr audio sr JUKEBOX_SAMPLE_RATE) <> 0 ->
  downmix lr audio sr = Ok mono -> data mono <> [].
Proof.
  intros [Hnn _] Hne Hd.
  destruct (downmix_shape lr audio sr mono Hd) as (c & n & Hr & _ & Hl).
  assert (0 < n).
  { unfold numel in Hne. destruct Hr as [[Hr _]|Hr]; rewrite Hr in Hnn, Hne;
      cbn [numel_of foldr] in Hne.
    - inversion Hnn; subst. lia.
    - inversion Hnn as [|? ? ? Hrest]; subst. inversion Hrest; subst. nia. }
  intros E. rewrite E in Hl. cbn [length] in Hl. lia.
Qed.

(** C3, as amended.  When the resampled input has at least one sample and
    its channel average (the buffer that lines 36-41 normalise) is not
    silent, preprocess_audio returns a buffer whose largest absolute value
    is exactly 1; when that average is silent, the division is skipped
    and the average is returned as it is. *)
Theorem preprocess_normalises_the_downmix
    (lr : Librosa) (audio : tensor Q) (sr : Z) (mono : tensor Q) :
  well_formed (lr_resample lr audio sr JUKEBOX_SAMPLE_RATE) ->
  numel (lr_resample lr audio sr JUKEBOX_SAMPLE_RATE) <> 0 ->
  downmix lr audio sr = Ok mono ->
  (audible (data mono) ->
     exists out, preprocess_audio lr audio sr = Ok out /\ max_abs_is (data out) 1)
  /\ (silent (data mono) ->
        preprocess_audio lr audio sr = Ok (flatten mono)
        /\ data (flatten mono) = data mono).
Proof.
  intros Hwf Hne Hd. unfold preprocess_audio. rewrite Hd. cbn [bind]. split.
  - intros Ha. destruct (normalize_audible mono Ha) as (p & _ & _ & Hn & Hmax).
    eexists. split; [exact Hn | exact Hmax].
  - intros Hs. split; [|reflexivity].
    apply normalize_silent; [|assumption].
    apply (downmix_nonempty lr audio sr); assumption.
Qed.

Lemma preprocess_normalises_the_downmix_witness :
  (exists out, preprocess_audio same_rate_librosa loud_stereo 44100 = Ok out
               /\ max_abs_is (data out) 1)
  /\ preprocess_audio same_rate_librosa antiphase_stereo 44100
     = Ok (Tensor [2] [0 # 2; 0 # 2]%Q).
Proof.
  split.
  - refine (proj1 (preprocess_normalises_the_downmix same_rate_librosa loud_stereo
                     44100 (Tensor [2] [4 # 2; 0 # 2]%Q) _ _ _) _).
    + split; [repeat constructor; lia | reflexivity].
    + vm_compute. discriminate.
    + reflexivity.
    + exists (4 # 2)%Q. split; [left; reflexivity | vm_compute; discriminate].
  - refine (proj1 (proj2 (preprocess_normalises_the_downmix same_rate_librosa
                            antiphase_stereo 44100 (Tensor [2] [0 # 2; 0 # 2]%Q)
                            _ _ _) _)).
    + split; [repeat constructor; lia | reflexivity].
    + vm_compute. discriminate.
    + reflexivity.
    + repeat constructor.
Defined.

(** C3, as stated, fails: two channels in opposite phase have peak 1, their
    average is silent, and the returned buffer is all-zero, not of peak 1. *)
Lemma peak_claim_fails_on_antiphase_stereo :
  ~ peak_claim_on_inputs same_rate_librosa 44100.
Proof.
  intros H.
  destruct (H antiphase_stereo) as [Hloud _].
  - split; [repeat constructor; lia | reflexivity].
  - right. reflexivity.
  - destruct Hloud as (out & Hout & (x & Hx & Hone) & _).
    + exists 1%Q. split; [left; reflexivity | vm_compute; discriminate].
    + vm_compute in Hout. injection Hout as <-.
      cbn [data] in Hx. destruct Hx as [<-|[<-|[]]]; vm_compute in Hone; discriminate.
Qed.

(** ** preprocess_audio: what it returns, and what it leaves alone *)

Lemma tensor_eta {A} (t : tensor A) : Tensor (shape t) (data t) = t.
Proof. destruct t. reflexivity. Qed.

Lemma lane_of_channel (d : list Q) (c n : Z) (i : nat) :
  (i < Z.to_nat n)%nat ->
  lane d (Z.to_nat c) (Z.to_nat n) 0 i
  = map (fun k => nth (Z.to_nat (k * n + Z.of_nat i)) d 0%Q) (range c).
Proof.
  intros Hi. unfold lane, range. rewrite map_map. apply map_ext.
  intros k. f_equal. nia.
Qed.

Lemma downmix_value (lr : Librosa) (audio : tensor Q) (sr c n : Z) :
  (shape (lr_resample lr audio sr JUKEBOX_SAMPLE_RATE) = [n] /\ c = 1
   \/ shape (lr_resample lr audio sr JUKEBOX_SAMPLE_RATE) = [c; n]) ->
  downmix lr audio sr
  = Ok (Tensor [n]
          (channel_means (data (lr_resample lr audio sr JUKEBOX_SAMPLE_RATE)) c n)).
Proof.
  intros Hs. unfold downmix.
  generalize dependent (lr_resample lr audio sr JUKEBOX_SAMPLE_RATE).
  intros [sh d] Hs. cbn [shape data] in *.
  assert (Hm : mean_dim (Tensor [c; n] d) 0
               = Ok (Tensor [n] (channel_means d c n))).
  { rewrite mean_dim_channels. do 2 f_equal. unfold channel_means, range.
    rewrite map_map. apply map_ext_in. intros i Hi. apply in_seq in Hi.
    f_equal. apply lane_of_channel. lia. }
  destruct Hs as [[-> ->]| ->]; exact Hm.
Qed.

Lemma channel_means_length (d : list Q) (c n : Z) :
  length (channel_means d c n) = Z.to_nat n.
Proof. unfold channel_means, range. rewrite !length_map, length_seq. reflexivity. Qed.

Lemma normalize_value (m : list Q) (n : Z) :
  m <> [] ->
  exists out,
    normalize (Tensor [n] m) = Ok (Tensor [n] out) /\ peak_normalised m out.
Proof.
  intros Hne.
  destruct (np_max_abs_total (Tensor [n] m) Hne) as [p Hp].
  destruct (np_max_abs_spec _ p Hp) as [Hex Hub]. cbn [data] in Hex, Hub.
  exists (if Qgt0 p then map (fun x => (x / p)%Q) m else m). split.
  - unfold normalize. rewrite Hp. cbn [bind]. f_equal.
    destruct (Qgt0 p); unfold flatten, numel, np_div_scalar;
      cbn [shape data numel_of foldr]; rewrite Z.mul_1_r; reflexivity.
  - exists p. split; [exact Hex|]. split; [exact Hub | reflexivity].
Qed.

(** The value of what preprocess_audio returns. *)
Lemma preprocess_audio_value (lr : Librosa) (audio : tensor Q) (sr c n : Z) :
  (shape (lr_resample lr audio sr JUKEBOX_SAMPLE_RATE) = [n] /\ c = 1
   \/ shape (lr_resample lr audio sr JUKEBOX_SAMPLE_RATE) = [c; n]) ->
  0 < n ->
  exists out,
    preprocess_audio lr audio sr = Ok out
    /\ shape out = [n]
    /\ Z.of_nat (length (data out)) = n
    /\ peak_normalised
         (channel_means (data (lr_resample lr audio sr JUKEBOX_SAMPLE_RATE)) c n)
         (data out).
Proof.
  intros Hs Hn. unfold preprocess_audio. rewrite (downmix_value lr audio sr c n Hs).
  cbn [bind].
  set (m := channel_means (data (lr_resample lr audio sr JUKEBOX_SAMPLE_RATE)) c n).
  assert (Hlen : length m = Z.to_nat n) by apply channel_means_length.
  destruct (normalize_value m n) as (out & Hnorm & Hpk).
  { intros E. rewrite E in Hlen. cbn [length] in Hlen. lia. }
  exists (Tensor [n] out). split; [exact Hnorm|]. split; [reflexivity|].
  split; [|exact Hpk]. cbn [data].
  destruct Hpk as (p & _ & _ & ->).
  destruct (Qgt0 p); rewrite ?length_map, Hlen; lia.
Qed.

(** *** On objects *)

Lemma bindS_run {A B} (m : ST A) (k : A -> ST B) (s : gmap nat (list Q)) :
  bindS m k s =
    match m s with
    | (Ok a, s') => k a s'
    | (Raise e, s') => (Raise e, s')
    end.
Proof. reflexivity. Qed.

Lemma deref_read (s : gmap nat (list Q)) (a : array_ref) (t : tensor Q) :
  read s a = Some t -> deref a s = (Ok t, s).
Proof. intros H. unfold deref. rewrite H. reflexivity. Qed.

Lemma read_shape (s : gmap nat (list Q)) (a : array_ref) (t : tensor Q) :
  read s a = Some t -> view_shape a = shape t.
Proof.
  unfold read. destruct (s !! buffer a); [|discriminate].
  cbn. intros [= <-]. reflexivity.
Qed.

Lemma read_alloc (s : gmap nat (list Q)) (t : tensor Q) :
  read (<[fresh (dom s) := data t]> s) (ArrayRef (fresh (dom s)) (shape t)) = Some t.
Proof.
  unfold read. cbn [buffer view_shape]. rewrite lookup_insert_eq. cbn.
  f_equal. apply tensor_eta.
Qed.

Lemma alloc_keeps (s : gmap nat (list Q)) (d : list Q) (b : nat) :
  b ∈ dom s -> <[fresh (dom s) := d]> s !! b = s !! b.
Proof.
  intros Hb. apply lookup_insert_ne. intros E. subst b.
  exact (is_fresh (dom s) Hb).
Qed.

(** The resampling step: the array it returns holds the resampled value,
    and every buffer of the store is as before. *)
Lemma resample_ref_spec (lr : Librosa) (ra : tensor Q -> Z -> Z -> bool)
    (x : array_ref) (orig target : Z) (s : gmap nat (list Q)) (audio : tensor Q) :
  (forall v a b, ra v a b = true -> lr_resample lr v a b = v) ->
  read s x = Some audio ->
  exists y s1,
    resample_ref lr ra x orig target s = (Ok y, s1)
    /\ read s1 y = Some (lr_resample lr audio orig target)
    /\ (forall b, b ∈ dom s -> s1 !! b = s !! b).
Proof.
  intros Hra Hx. unfold resample_ref. rewrite bindS_run, (deref_read s x audio Hx).
  destruct (ra audio orig target) eqn:E.
  - exists x, s. split; [reflexivity|]. split; [|reflexivity].
    rewrite (Hra _ _ _ E). exact Hx.
  - eexists. eexists. split; [reflexivity|]. split; [apply read_alloc|].
    intros b Hb. apply alloc_keeps. exact Hb.
Qed.

(** Lines 30-41 on an array that holds [r], step by step. *)
Lemma mix_and_normalize_ref_run (a : array_ref) (s : gmap nat (list Q))
    (r : tensor Q) :
  read s a = Some r ->
  mix_and_normalize_ref a s =
    let r' := if ndim r =? 1 then newaxis r else r in
    if ndim r' =? 2 then
      match mean_dim r' 0 with
      | Raise e => (Raise e, s)
      | Ok m =>
          let b2 := fresh (dom s) in
          let s2 := <[b2 := data m]> s in
          match np_max (np_abs m) with
          | Raise e => (Raise e, s2)
          | Ok p =>
              let m' := if Qgt0 p then np_div_scalar m p else m in
              let s3 := if Qgt0 p then <[b2 := data (np_div_scalar m p)]> s2
                        else s2 in
              (Ok (ArrayRef (fresh (dom s3)) (shape (flatten m'))),
               <[fresh (dom s3) := data (flatten m')]> s3)
          end
      end
    else (Raise (AssertionError ndim_message), s).
Proof.
  intros Ha. pose proof (read_shape s a r Ha) as Hsh.
  unfold mix_and_normalize_ref.
  assert (Hnd : ndim_ref a = ndim r) by (unfold ndim_ref, ndim; rewrite Hsh; reflexivity).
  rewrite Hnd. cbv zeta.
  set (a' := if ndim r =? 1 then newaxis_ref a else a).
  set (r' := if ndim r =? 1 then newaxis r else r).
  assert (Ha' : read s a' = Some r').
  { unfold a', r'. destruct (ndim r =? 1); [|exact Ha].
    unfold read, newaxis_ref, newaxis in *. cbn [buffer view_shape].
    destruct (s !! buffer a); [|discriminate]. cbn in *.
    injection Ha as <-. reflexivity. }
  assert (Hnd' : ndim_ref a' = ndim r').
  { unfold ndim_ref, ndim. rewrite (read_shape s a' r' Ha'). reflexivity. }
  rewrite Hnd'. destruct (ndim r' =? 2); [|reflexivity].
  rewrite bindS_run, (deref_read s a' r' Ha').
  rewrite bindS_run. unfold liftS at 1.
  destruct (mean_dim r' 0) as [m|e]; [|reflexivity].
  rewrite bindS_run. unfold alloc at 1.
  assert (Hm : read (<[fresh (dom s) := data m]> s)
                 (ArrayRef (fresh (dom s)) (shape m)) = Some m) by apply read_alloc.
  rewrite bindS_run, (deref_read _ _ _ Hm).
  rewrite bindS_run. unfold liftS at 1.
  destruct (np_max (np_abs m)) as [p|e]; [|reflexivity].
  rewrite bindS_run.
  destruct (Qgt0 p).
  - unfold divide_in_place. rewrite bindS_run, (deref_read _ _ _ Hm).
    rewrite bindS_run.
    assert (Hm' : read (<[fresh (dom s) := data (np_div_scalar m p)]>
                          (<[fresh (dom s) := data m]> s))
                    (ArrayRef (fresh (dom s)) (shape m))
                  = Some (np_div_scalar m p)).
    { unfold read. cbn [buffer view_shape]. rewrite lookup_insert_eq. reflexivity. }
    cbn [buffer]. rewrite (deref_read _ _ _ Hm'). reflexivity.
  - unfold retS. rewrite bindS_run, (deref_read _ _ _ Hm). reflexivity.
Qed.

(** Lines 30-41 on an array that holds [r]: the result is a new array
    that holds what the value model returns, and every buffer of the store
    is as before. *)
Lemma mix_and_normalize_ref_spec (a : array_ref) (s : gmap nat (list Q))
    (r : tensor Q) :
  read s a = Some r ->
  (forall b, b ∈ dom s -> snd (mix_and_normalize_ref a s) !! b = s !! b)
  /\ match (m <- (let r' := if ndim r =? 1 then newaxis r else r in
                  if ndim r' =? 2 then mean_dim r' 0
                  else Raise (AssertionError ndim_message)) ;;
            normalize m) with
     | Ok out =>
         exists y,
           fst (mix_and_normalize_ref a s) = Ok y
           /\ read (snd (mix_and_normalize_ref a s)) y = Some out
           /\ buffer y ∉ dom s
     | Raise e => fst (mix_and_normalize_ref a s) = Raise e
     end.
Proof.
  intros Ha. rewrite (mix_and_normalize_ref_run a s r Ha). cbv zeta.
  destruct (ndim (if ndim r =? 1 then newaxis r else r) =? 2);
    [|split; reflexivity].
  destruct (mean_dim _ 0) as [m|e]; [|split; reflexivity].
  cbn [bind]. unfold normalize.
  destruct (np_max (np_abs m)) as [p|e]; cbn [bind].
  2:{ split; [|reflexivity]. intros b Hb. cbn [snd]. apply alloc_keeps. exact Hb. }
  set (b2 := fresh (dom s)).
  set (s3 := if Qgt0 p then <[b2 := data (np_div_scalar m p)]> (<[b2 := data m]> s)
             else <[b2 := data m]> s).
  set (m' := if Qgt0 p then np_div_scalar m p else m).
  cbn [fst snd].
  assert (Hdom : forall b, b ∈ dom s -> s3 !! b = s !! b).
  { intros b Hb.
    assert (Hne : b2 <> b) by (intros <-; exact (is_fresh (dom s) Hb)).
    unfold s3. destruct (Qgt0 p); rewrite ?lookup_insert_ne by exact Hne;
      reflexivity. }
  assert (Hsub : forall b, b ∈ dom s -> b ∈ dom s3).
  { intros b Hb. apply elem_of_dom. rewrite (Hdom b Hb). apply elem_of_dom. exact Hb. }
  split.
  - intros b Hb. rewrite alloc_keeps by (apply Hsub; exact Hb). apply Hdom. exact Hb.
  - eexists. split; [reflexivity|]. split.
    + apply (read_alloc s3 (flatten m')).
    + cbn [buffer]. intros Hin. exact (is_fresh (dom s3) (Hsub _ Hin)).
Qed.

(** preprocess_audio on objects against preprocess_audio on values. *)
Lemma preprocess_audio_ref_spec (lr : Librosa) (ra : tensor Q -> Z -> Z -> bool)
    (x : array_ref) (sr : Z) (s : gmap nat (list Q)) (audio : tensor Q) :
  (forall v a b, ra v a b = true -> lr_resample lr v a b = v) ->
  read s x = Some audio ->
  (forall b, b ∈ dom s -> snd (preprocess_audio_ref lr ra x sr s) !! b = s !! b)
  /\ match preprocess_audio lr audio sr with
     | Ok out =>
         exists y,
           fst (preprocess_audio_ref lr ra x sr s) = Ok y
           /\ read (snd (preprocess_audio_ref lr ra x sr s)) y = Some out
           /\ buffer y ∉ dom s
     | Raise e => fst (preprocess_audio_ref lr ra x sr s) = Raise e
     end.
Proof.
  intros Hra Hx. unfold preprocess_audio_ref. rewrite bindS_run.
  destruct (resample_ref_spec lr ra x sr JUKEBOX_SAMPLE_RATE s audio Hra Hx)
    as (y & s1 & -> & Hy & Hkeep).
  destruct (mix_and_normalize_ref_spec y s1 _ Hy) as [Hkeep1 Hres].
  assert (Hsub : forall b, b ∈ dom s -> b ∈ dom s1).
  { intros b Hb. apply elem_of_dom. rewrite (Hkeep b Hb). apply elem_of_dom. exact Hb. }
  split.
  - intros b Hb. rewrite Hkeep1 by (apply Hsub; exact Hb). apply Hkeep. exact Hb.
  - unfold preprocess_audio, downmix.
    destruct (m <- _ ;; normalize m) as [out|e]; [|exact Hres].
    destruct Hres as (z & H1 & H2 & H3). exists z.
    split; [exact H1|]. split; [exact H2|].
    intros Hin. exact (H3 (Hsub _ Hin)).
Qed.

Lemma read_kept (s s' : gmap nat (list Q)) (a : array_ref) (t : tensor Q) :
  (forall b, b ∈ dom s -> s' !! b = s !! b) ->
  read s a = Some t -> read s' a = Some t.
Proof.
  intros Hkeep Ha. unfold read in *.
  destruct (s !! buffer a) as [d|] eqn:E; [|discriminate].
  rewrite Hkeep by (apply elem_of_dom; eexists; exact E).
  rewrite E. exact Ha.
Qed.

(** C8.  What preprocess_audio returns is one-dimensional and mono: for a
    resampled input of [n] samples, in one channel or in [c] channels, it
    returns a buffer of shape ([n]) that holds the channel averages divided
    by their peak (or as they are, when the peak is zero).  It is
    deterministic as a procedure on array objects: the array it returns is a
    new one that holds exactly the value of the value model, whatever else
    the store holds and whichever object the resampler returns; every array
    that existed before the call, the input included, holds what it held;
    so a second call on the same array, or a call on another array with
    the same contents, returns an array with the same contents. *)
Theorem preprocess_audio_is_mono_and_repeatable (lr : Librosa)
    (returns_argument : tensor Q -> Z -> Z -> bool) (audio : tensor Q) (sr : Z) :
  (forall out, preprocess_audio lr audio sr = Ok out ->
     ndim out = 1 /\ exists n, shape out = [n] /\ Z.of_nat (length (data out)) = n)
  /\ (forall c n,
        well_formed (lr_resample lr audio sr JUKEBOX_SAMPLE_RATE) ->
        (shape (lr_resample lr audio sr JUKEBOX_SAMPLE_RATE) = [n] /\ c = 1
         \/ shape (lr_resample lr audio sr JUKEBOX_SAMPLE_RATE) = [c; n]) ->
        0 < c -> 0 < n ->
        exists out,
          preprocess_audio lr audio sr = Ok out
          /\ ndim out = 1 /\ shape out = [n]
          /\ Z.of_nat (length (data out)) = n
          /\ peak_normalised
               (channel_means (data (lr_resample lr audio sr JUKEBOX_SAMPLE_RATE)) c n)
               (data out))
  /\ ((forall v a b, returns_argument v a b = true -> lr_resample lr v a b = v) ->
      (forall s x,
         read s x = Some audio ->
         (forall b, b ∈ dom s ->
            snd (preprocess_audio_ref lr returns_argument x sr s) !! b = s !! b)
         /\ match preprocess_audio lr audio sr with
            | Ok out =>
                exists y,
                  fst (preprocess_audio_ref lr returns_argument x sr s) = Ok y
                  /\ read (snd (preprocess_audio_ref lr returns_argument x sr s)) y
                     = Some out
                  /\ buffer y ∉ dom s
            | Raise e =>
                fst (preprocess_audio_ref lr returns_argument x sr s) = Raise e
            end)
      /\ (forall s x,
            read s x = Some audio ->
            let run1 := preprocess_audio_ref lr returns_argument x sr s in
            let run2 := preprocess_audio_ref lr returns_argument x sr (snd run1) in
            read (snd run2) x = Some audio
            /\ match fst run1, fst run2 with
               | Ok y1, Ok y2 =>
                   read (snd run2) y2 = read (snd run1) y1
                   /\ read (snd run2) y1 = read (snd run1) y1
               | Raise e1, Raise e2 => e1 = e2
               | _, _ => False
               end)
      /\ (forall s1 x1 s2 x2,
            read s1 x1 = Some audio -> read s2 x2 = Some audio ->
            let run1 := preprocess_audio_ref lr returns_argument x1 sr s1 in
            let run2 := preprocess_audio_ref lr returns_argument x2 sr s2 in
            match fst run1, fst run2 with
            | Ok y1, Ok y2 => read (snd run1) y1 = read (snd run2) y2
            | Raise e1, Raise e2 => e1 = e2
            | _, _ => False
            end)).
Proof.
  split; [|split].
  - intros out. unfold preprocess_audio.
    destruct (downmix lr audio sr) as [mono|e] eqn:Hd; [|discriminate].
    cbn [bind]. intros Hn.
    destruct (downmix_shape lr audio sr mono Hd) as (c & n & _ & Hs & Hl).
    destruct (normalize_shape mono out n Hs Hl Hn) as (Hso & Hlo & _).
    split; [unfold ndim; rewrite Hso; reflexivity|].
    exists n. split; assumption.
  - intros c n _ Hs _ Hn.
    destruct (preprocess_audio_value lr audio sr c n Hs Hn)
      as (out & H1 & H2 & H3 & H4).
    exists out. split; [exact H1|].
    split; [unfold ndim; rewrite H2; reflexivity|].
    split; [exact H2|]. split; [exact H3 | exact H4].
  - intros Hra.
    pose proof (fun s x => preprocess_audio_ref_spec lr returns_argument x sr s
                             audio Hra) as Hspec.
    split; [exact Hspec|]. split.
    + intros s x Hx run1 run2.
      destruct (Hspec s x Hx) as [Hk1 Hr1]. fold run1 in Hk1, Hr1.
      pose proof (read_kept s (snd run1) x audio Hk1 Hx) as Hx1.
      destruct (Hspec (snd run1) x Hx1) as [Hk2 Hr2]. fold run2 in Hk2, Hr2.
      split; [exact (read_kept _ _ x audio Hk2 Hx1)|].
      destruct (preprocess_audio lr audio sr) as [out|e].
      * destruct Hr1 as (y1 & E1 & R1 & _). destruct Hr2 as (y2 & E2 & R2 & _).
        rewrite E1, E2. split; [rewrite R1, R2; reflexivity|].
        rewrite R1. apply (read_kept _ _ y1 out Hk2 R1).
      * rewrite Hr1, Hr2. reflexivity.
    + intros s1 x1 s2 x2 H1 H2 run1 run2.
      destruct (Hspec s1 x1 H1) as [_ Hr1]. fold run1 in Hr1.
      destruct (Hspec s2 x2 H2) as [_ Hr2]. fold run2 in Hr2.
      destruct (preprocess_audio lr audio sr) as [out|e].
      * destruct Hr1 as (y1 & E1 & R1 & _). destruct Hr2 as (y2 & E2 & R2 & _).
        rewrite E1, E2, R1, R2. reflexivity.
      * rewrite Hr1, Hr2. reflexivity.
Qed.

Lemma preprocess_audio_is_mono_and_repeatable_witness :
  (exists out,
      preprocess_audio same_rate_librosa loud_stereo 44100 = Ok out
      /\ shape out = [2]
      /\ peak_normalised (channel_means (data loud_stereo) 2 2) (data out))
  /\ (exists y,
        fst (preprocess_audio_ref same_rate_librosa (fun _ a b => a =? b)
               (ArrayRef 0 [2; 2]) 44100 store_with_loud_stereo) = Ok y
        /\ read (snd (preprocess_audio_ref same_rate_librosa (fun _ a b => a =? b)
                        (ArrayRef 0 [2; 2]) 44100 store_with_loud_stereo)) y
           = Some (Tensor [2] [8 # 8; 0 # 8]%Q))
  /\ read (snd (preprocess_audio_ref same_rate_librosa (fun _ a b => a =? b)
                  (ArrayRef 0 [2; 2]) 44100
                  (snd (preprocess_audio_ref same_rate_librosa (fun _ a b => a =? b)
                          (ArrayRef 0 [2; 2]) 44100 store_with_loud_stereo))))
       (ArrayRef 0 [2; 2])
     = Some loud_stereo.
Proof.
  destruct (preprocess_audio_is_mono_and_repeatable same_rate_librosa
              (fun _ a b => a =? b) loud_stereo 44100) as (_ & HA & HB).
  destruct HB as (H3 & H4 & _); [intros v a b _; reflexivity|].
  split; [|split].
  - destruct (HA 2 2) as (out & E & _ & Hs & _ & Hp).
    + split; [repeat constructor; lia | reflexivity].
    + right. reflexivity.
    + lia.
    + lia.
    + exists out. split; [exact E|]. split; [exact Hs | exact Hp].
  - destruct (H3 store_with_loud_stereo (ArrayRef 0 [2; 2]) eq_refl) as [_ Hr].
    change (preprocess_audio same_rate_librosa loud_stereo 44100)
      with (Ok (Tensor [2] [8 # 8; 0 # 8]%Q)) in Hr.
    destruct Hr as (y & E & R & _). exists y. split; [exact E | exact R].
  - exact (proj1 (H4 store_with_loud_stereo (ArrayRef 0 [2; 2]) eq_refl)).
Defined.

(** ** Padding *)

Lemma audio_padding_appends_zeros (audio : tensor Q) (n target : Z) :
  shape audio = [n] -> n <= target ->
  audio_padding audio target
  = Ok (Tensor [n + (target - n)] (data audio ++ repeat 0%Q (Z.to_nat (target - n)))).
Proof.
  intros Hs Hle. unfold audio_padding, size. rewrite Hs.
  cbn [lookup list_lookup bind]. unfold np_zeros.
  destruct (Z.ltb_spec (target - n) 0); [lia|]. cbn [bind].
  unfold np_concatenate. rewrite Hs. cbn [shape data].
  destruct (decide ([] = [])) as [_|Hne]; [reflexivity | contradiction].
Qed.

(** C4.  A one-dimensional buffer shorter than SAMPLE_LENGTH comes out of
    the padding step with exactly SAMPLE_LENGTH samples: the original ones
    followed by zeros.  A buffer of SAMPLE_LENGTH samples or more comes out
    unchanged. *)
Theorem zero_padding_pads_only_short_buffers (audio : tensor Q) (n : Z) :
  shape audio = [n] -> Z.of_nat (length (data audio)) = n ->
  (n < SAMPLE_LENGTH ->
     exists tail,
       zero_padding audio = Ok (Tensor [SAMPLE_LENGTH] (data audio ++ tail))
       /\ Z.of_nat (length (data audio ++ tail)) = SAMPLE_LENGTH
       /\ take (length (data audio)) (data audio ++ tail) = data audio
       /\ drop (length (data audio)) (data audio ++ tail) = tail
       /\ Forall (fun x => x = 0%Q) tail)
  /\ (SAMPLE_LENGTH <= n -> zero_padding audio = Ok audio).
Proof.
  intros Hs Hl. unfold zero_padding, size. rewrite Hs.
  cbn [lookup list_lookup bind]. split.
  - intros Hlt. destruct (Z.ltb_spec n SAMPLE_LENGTH); [|lia].
    exists (repeat 0%Q (Z.to_nat (SAMPLE_LENGTH - n))).
    split; [|split; [|split; [|split]]].
    + rewrite (audio_padding_appends_zeros audio n SAMPLE_LENGTH Hs) by lia.
      replace (n + (SAMPLE_LENGTH - n)) with SAMPLE_LENGTH by lia. reflexivity.
    + rewrite length_app, repeat_length. lia.
    + apply take_app_length.
    + apply drop_app_length.
    + apply Forall_forall. intros x Hx. apply list_elem_of_In in Hx.
      apply repeat_spec in Hx. exact Hx.
  - intros Hge. destruct (Z.ltb_spec n SAMPLE_LENGTH); [lia|]. reflexivity.
Qed.

Lemma full_length_mono_length :
  Z.of_nat (length (data full_length_mono)) = SAMPLE_LENGTH.
Proof.
  unfold full_length_mono. cbn [data]. rewrite repeat_length.
  apply Z2Nat.id. unfold SAMPLE_LENGTH. lia.
Qed.

Lemma zero_padding_pads_only_short_buffers_witness :
  (exists tail,
      zero_padding short_mono = Ok (Tensor [SAMPLE_LENGTH] (data short_mono ++ tail))
      /\ Z.of_nat (length (data short_mono ++ tail)) = SAMPLE_LENGTH)
  /\ zero_padding full_length_mono = Ok full_length_mono.
Proof.
  split.
  - destruct (proj1 (zero_padding_pads_only_short_buffers short_mono 2
                       eq_refl eq_refl)) as (tail & H1 & H2 & _).
    + unfold SAMPLE_LENGTH. lia.
    + exists tail. split; assumption.
  - apply (proj2 (zero_padding_pads_only_short_buffers full_length_mono
                    SAMPLE_LENGTH eq_refl full_length_mono_length)).
    lia.
Defined.

(** ** What the pipeline leaves alone *)

Lemma keeps_disk_ret {A} (a : A) : keeps_disk (ret a).
Proof. intros w. split; reflexivity. Qed.

Lemma keeps_disk_lift {A} (r : result A) : keeps_disk (lift r).
Proof. intros w. split; reflexivity. Qed.

Lemma keeps_disk_bind {A B} (m : M A) (k : A -> M B) :
  keeps_disk m -> (forall a, keeps_disk (k a)) -> keeps_disk (bindM m k).
Proof.
  intros Hm Hk w. unfold bindM. specialize (Hm w).
  destruct (m w) as [[a|e] w1]; cbn [snd] in *.
  - destruct (Hk a w1) as [H1 H2]. destruct Hm as [H3 H4]. split; congruence.
  - exact Hm.
Qed.

Lemma keeps_disk_hps_int (field : string) : keeps_disk (hps_int field).
Proof.
  intros w. unfold hps_int. destruct (hps w !! field) as [[ | | ]|]; split; reflexivity.
Qed.

Lemma keeps_disk_hps_assign (field : string) (v : hval) :
  keeps_disk (hps_assign field v).
Proof. intros w. split; reflexivity. Qed.

Lemma keeps_disk_set_only_encode (b : bool) : keeps_disk (set_only_encode b).
Proof. intros w. split; reflexivity. Qed.

Lemma keeps_disk_get_cond {Labels} (top_prior : Prior Labels) :
  keeps_disk (get_cond top_prior).
Proof.
  unfold get_cond.
  apply keeps_disk_bind; [apply keeps_disk_hps_int | intros sr].
  apply keeps_disk_bind; [apply keeps_disk_lift | intros q].
  apply keeps_disk_bind; [apply keeps_disk_hps_assign | intros _].
  apply keeps_disk_bind; [apply keeps_disk_hps_int | intros sl].
  apply keeps_disk_bind; [apply keeps_disk_hps_int | intros n].
  destruct (prior_get_cond top_prior _) as [[x y] prime].
  apply keeps_disk_bind; [apply keeps_disk_lift | intros x'].
  apply keeps_disk_bind; [apply keeps_disk_lift | intros y'].
  apply keeps_disk_ret.
Qed.

Lemma keeps_disk_get_final_activations {Labels} (top_prior : Prior Labels)
    (z : tensor Z) (x_cond y_cond : tensor Q) :
  keeps_disk (get_final_activations top_prior z x_cond y_cond).
Proof.
  unfold get_final_activations.
  apply keeps_disk_bind; [apply keeps_disk_lift | intros x].
  apply keeps_disk_bind; [apply keeps_disk_set_only_encode | intros _].
  apply keeps_disk_ret.
Qed.

Lemma keeps_disk_get_acts_from_array {Labels} (lr : Librosa) (vqvae : VQVAE)
    (top_prior : Prior Labels) (audio : tensor Q) (sr meanpool : Z) :
  keeps_disk (get_acts_from_array lr vqvae top_prior audio sr meanpool).
Proof.
  unfold get_acts_from_array, tokens_and_conditioning.
  apply keeps_disk_bind; [| intros zc].
  - apply keeps_disk_bind; [apply keeps_disk_lift | intros a1].
    apply keeps_disk_bind; [apply keeps_disk_lift | intros a2].
    apply keeps_disk_bind; [apply keeps_disk_lift | intros z].
    apply keeps_disk_bind; [apply keeps_disk_get_cond | intros c].
    apply keeps_disk_ret.
  - apply keeps_disk_bind; [apply keeps_disk_get_final_activations | intros acts].
    apply keeps_disk_lift.
Qed.

Lemma keeps_disk_get_acts_from_file {Labels} (lr : Librosa) (vqvae : VQVAE)
    (top_prior : Prior Labels) (fpath : string * string) (meanpool : Z) :
  keeps_disk (get_acts_from_file lr vqvae top_prior fpath meanpool).
Proof.
  unfold get_acts_from_file.
  apply keeps_disk_bind; [apply keeps_disk_lift | intros audio].
  apply keeps_disk_get_acts_from_array.
Qed.

(** ** The conditioning builder *)

Lemma get_cond_unfold {Labels} (top_prior : Prior Labels) (w : World) :
  get_cond top_prior w =
    match hps w !! "sr" with
    | Some (HInt sr) =>
        if raw_to_tokens top_prior =? 0 then (Raise ZeroDivisionError, w)
        else
          let v := 62 * sr / raw_to_tokens top_prior * raw_to_tokens top_prior in
          match hps w !! "n_samples" with
          | Some (HInt n) => (conditioning top_prior v n, with_sample_length w v)
          | Some _ => (Raise (TypeError "not an integer"), with_sample_length w v)
          | None => (Raise (KeyError "n_samples"), with_sample_length w v)
          end
    | Some _ => (Raise (TypeError "not an integer"), w)
    | None => (Raise (KeyError "sr"), w)
    end.
Proof.
  unfold get_cond, bindM. unfold hps_int at 1.
  destruct (hps w !! "sr") as [[sr|s|l]|] eqn:Hsr; try reflexivity.
  unfold lift, py_floordiv.
  destruct (raw_to_tokens top_prior =? 0); [reflexivity|].
  unfold hps_assign, set_hps. cbn [fst snd].
  unfold hps_int at 1. cbn [hps]. rewrite lookup_insert_eq.
  unfold hps_int. cbn [hps]. rewrite lookup_insert_ne by discriminate.
  unfold with_sample_length.
  destruct (hps w !! "n_samples") as [[n|s|l]|]; try reflexivity.
  unfold conditioning.
  destruct (prior_get_cond top_prior _) as [[x y] prime].
  destruct (first_rows_batched x) as [x'|e]; [|reflexivity]. cbn [bind].
  destruct (first_batched y) as [y'|e]; reflexivity.
Qed.

(** C10.  A call of get_cond on a bundle whose [sr] is an integer, with a
    prior whose [raw_to_tokens] is not zero, sets [sample_length] to
    [((62 * sr) // raw_to_tokens) * raw_to_tokens] and changes nothing else,
    in the bundle or elsewhere; a second call leaves the state as the first
    one left it. *)
Theorem get_cond_sets_sample_length {Labels} (top_prior : Prior Labels)
    (w : World) (sr : Z) :
  hps w !! "sr" = Some (HInt sr) -> raw_to_tokens top_prior <> 0 ->
  let v := 62 * sr / raw_to_tokens top_prior * raw_to_tokens top_prior in
  let w' := snd (get_cond top_prior w) in
  hps w' = <["sample_length" := HInt v]> (hps w)
  /\ (forall field, field <> "sample_length" -> hps w' !! field = hps w !! field)
  /\ only_encode w' = only_encode w
  /\ files w' = files w
  /\ history w' = history w
  /\ snd (get_cond top_prior w') = w'.
Proof.
  intros Hsr Hrt v w'.
  assert (Hw' : w' = with_sample_length w v).
  { unfold w'. rewrite get_cond_unfold, Hsr.
    destruct (Z.eqb_spec (raw_to_tokens top_prior) 0) as [E0|E0]; [contradiction|].
    cbv zeta. destruct (hps w !! "n_samples") as [[n|s|l]|]; reflexivity. }
  rewrite Hw'. split; [reflexivity|]. split.
  { intros field Hf. cbn [with_sample_length hps].
    apply lookup_insert_ne. congruence. }
  split; [reflexivity|]. split; [reflexivity|]. split; [reflexivity|].
  rewrite get_cond_unfold. cbn [with_sample_length hps].
  rewrite lookup_insert_ne by discriminate. rewrite Hsr.
  destruct (Z.eqb_spec (raw_to_tokens top_prior) 0) as [E0|E0]; [contradiction|].
  cbv zeta. rewrite lookup_insert_ne by discriminate.
  fold v.
  assert (E : with_sample_length
                {| hps := <["sample_length" := HInt v]> (hps w);
                   only_encode := only_encode w; files := files w;
                   history := history w |} v
              = with_sample_length w v).
  { unfold with_sample_length. cbn [hps only_encode files history].
    rewrite insert_insert_eq. reflexivity. }
  destruct (hps w !! "n_samples") as [[n|s|l]|]; cbn [snd]; exact E.
Qed.

Lemma get_cond_sets_sample_length_witness :
  hps (snd (get_cond small_prior world_with_track1)) !! "sample_length"
  = Some (HInt 2734080)
  /\ snd (get_cond small_prior (snd (get_cond small_prior world_with_track1)))
     = snd (get_cond small_prior world_with_track1).
Proof.
  destruct (get_cond_sets_sample_length small_prior world_with_track1 44100)
    as (H1 & _ & _ & _ & _ & H6).
  - reflexivity.
  - cbn. lia.
  - split; [rewrite H1; reflexivity | exact H6].
Defined.

(** ** Independence of the conditioning from the audio *)

Lemma tokens_and_conditioning_cond {Labels} (lr : Librosa) (vqvae : VQVAE)
    (top_prior : Prior Labels) (audio : tensor Q) (sr : Z) (w w' : World)
    (z : tensor Z) (c : tensor Q * tensor Q) :
  tokens_and_conditioning lr vqvae top_prior audio sr w = (Ok (z, c), w') ->
  get_cond top_prior w = (Ok c, w').
Proof.
  unfold tokens_and_conditioning, bindM, lift, ret.
  destruct (preprocess_audio lr audio sr) as [a1|e]; [|discriminate].
  destruct (zero_padding a1) as [a2|e]; [|discriminate].
  destruct (get_z vqvae a2) as [z'|e]; [|discriminate].
  destruct (get_cond top_prior w) as [[c'|e] w1]; [|discriminate].
  intros [= <- <- <-]. reflexivity.
Qed.

Lemma get_cond_result_reads_two_fields {Labels} (top_prior : Prior Labels)
    (w1 w2 : World) :
  hps w1 !! "sr" = hps w2 !! "sr" ->
  hps w1 !! "n_samples" = hps w2 !! "n_samples" ->
  fst (get_cond top_prior w1) = fst (get_cond top_prior w2).
Proof.
  intros Hsr Hn. rewrite !get_cond_unfold, <- Hsr, <- Hn.
  destruct (hps w1 !! "sr") as [[sr|s|l]|]; try reflexivity.
  destruct (raw_to_tokens top_prior =? 0); [reflexivity|].
  cbv zeta. destruct (hps w1 !! "n_samples") as [[n|s|l]|]; reflexivity.
Qed.

Lemma wosl_lift {A} (r : result A) : writes_only_sample_length (lift r).
Proof. intros w field _. reflexivity. Qed.

Lemma wosl_ret {A} (a : A) : writes_only_sample_length (ret a).
Proof. intros w field _. reflexivity. Qed.

Lemma wosl_bind {A B} (m : M A) (k : A -> M B) :
  writes_only_sample_length m -> (forall a, writes_only_sample_length (k a)) ->
  writes_only_sample_length (bindM m k).
Proof.
  intros Hm Hk w field Hf. unfold bindM. specialize (Hm w field Hf).
  destruct (m w) as [[a|e] w1]; cbn [snd] in *.
  - rewrite (Hk a w1 field Hf). exact Hm.
  - exact Hm.
Qed.

Lemma wosl_get_cond {Labels} (top_prior : Prior Labels) :
  writes_only_sample_length (get_cond top_prior).
Proof.
  intros w field Hf. rewrite get_cond_unfold.
  destruct (hps w !! "sr") as [[sr|s|l]|]; try reflexivity.
  destruct (raw_to_tokens top_prior =? 0); [reflexivity|].
  cbv zeta.
  destruct (hps w !! "n_samples") as [[n|s|l]|]; cbn [snd with_sample_length hps];
    apply lookup_insert_ne; congruence.
Qed.

Lemma wosl_get_acts_from_array {Labels} (lr : Librosa) (vqvae : VQVAE)
    (top_prior : Prior Labels) (audio : tensor Q) (sr meanpool : Z) :
  writes_only_sample_length (get_acts_from_array lr vqvae top_prior audio sr meanpool).
Proof.
  unfold get_acts_from_array, tokens_and_conditioning.
  apply wosl_bind; [| intros zc].
  - apply wosl_bind; [apply wosl_lift | intros a1].
    apply wosl_bind; [apply wosl_lift | intros a2].
    apply wosl_bind; [apply wosl_lift | intros z].
    apply wosl_bind; [apply wosl_get_cond | intros c].
    apply wosl_ret.
  - apply wosl_bind; [| intros acts; apply wosl_lift].
    unfold get_final_activations.
    apply wosl_bind; [apply wosl_lift | intros x].
    apply wosl_bind; [| intros _; apply wosl_ret].
    intros w field _. reflexivity.
Qed.

(** C9.  The conditioning that the pipeline computes does not depend on
    the audio: two inputs processed from states that agree on [sr] and
    [n_samples] get the same [(x_cond, y_cond)], and processing an input
    changes neither of the two fields, so every file of a run gets the
    conditioning of the first one. *)
Theorem conditioning_does_not_depend_on_audio {Labels} (lr : Librosa)
    (vqvae : VQVAE) (top_prior : Prior Labels) :
  (forall audio1 sr1 audio2 sr2 w1 w2 z1 c1 w1' z2 c2 w2',
      hps w1 !! "sr" = hps w2 !! "sr" ->
      hps w1 !! "n_samples" = hps w2 !! "n_samples" ->
      tokens_and_conditioning lr vqvae top_prior audio1 sr1 w1 = (Ok (z1, c1), w1') ->
      tokens_and_conditioning lr vqvae top_prior audio2 sr2 w2 = (Ok (z2, c2), w2') ->
      c1 = c2)
  /\ (forall audio sr meanpool w,
        let w' := snd (get_acts_from_array lr vqvae top_prior audio sr meanpool w) in
        hps w' !! "sr" = hps w !! "sr" /\ hps w' !! "n_samples" = hps w !! "n_samples")
  /\ (forall audio1 sr1 meanpool audio2 sr2 w z1 c1 w1 z2 c2 w2,
        tokens_and_conditioning lr vqvae top_prior audio1 sr1 w = (Ok (z1, c1), w1) ->
        tokens_and_conditioning lr vqvae top_prior audio2 sr2
          (snd (get_acts_from_array lr vqvae top_prior audio1 sr1 meanpool w))
        = (Ok (z2, c2), w2) ->
        c1 = c2).
Proof.
  assert (A : forall audio1 sr1 audio2 sr2 w1 w2 z1 c1 w1' z2 c2 w2',
      hps w1 !! "sr" = hps w2 !! "sr" ->
      hps w1 !! "n_samples" = hps w2 !! "n_samples" ->
      tokens_and_conditioning lr vqvae top_prior audio1 sr1 w1 = (Ok (z1, c1), w1') ->
      tokens_and_conditioning lr vqvae top_prior audio2 sr2 w2 = (Ok (z2, c2), w2') ->
      c1 = c2).
  { intros audio1 sr1 audio2 sr2 w1 w2 z1 c1 w1' z2 c2 w2' Hsr Hn H1 H2.
    apply tokens_and_conditioning_cond in H1, H2.
    pose proof (get_cond_result_reads_two_fields top_prior w1 w2 Hsr Hn) as E.
    rewrite H1, H2 in E. cbn [fst] in E. congruence. }
  assert (B : forall audio sr meanpool w,
        let w' := snd (get_acts_from_array lr vqvae top_prior audio sr meanpool w) in
        hps w' !! "sr" = hps w !! "sr" /\ hps w' !! "n_samples" = hps w !! "n_samples").
  { intros audio sr meanpool w.
    split; apply (wosl_get_acts_from_array lr vqvae top_prior); discriminate. }
  split; [exact A|]. split; [exact B|].
  intros audio1 sr1 meanpool audio2 sr2 w z1 c1 w1 z2 c2 w2 H1 H2.
  destruct (B audio1 sr1 meanpool w) as [Hsr Hn].
  exact (A audio1 sr1 audio2 sr2 w _ z1 c1 w1 z2 c2 w2 (eq_sym Hsr) (eq_sym Hn) H1 H2).
Qed.

(** ** The driver loop *)

Lemma bindM_run {A B} (m : M A) (k : A -> M B) (w : World) :
  bindM m k w =
    match m w with
    | (Ok a, w1) => k a w1
    | (Raise e, w1) => (Raise e, w1)
    end.
Proof. reflexivity. Qed.

(** Whether a list of calls holds a save to [p] is decidable. *)
Lemma classic_in_saves (p : string * string) (calls : list call) :
  (exists r, In (Call_np_save p r) calls)
  \/ (forall r, ~ In (Call_np_save p r) calls).
Proof.
  induction calls as [|c calls IH].
  - right. intros r [].
  - destruct IH as [[r Hr]|Hno].
    + left. exists r. right. exact Hr.
    + destruct c as [q|q|q arr].
      * right. intros r [H|H]; [discriminate | exact (Hno r H)].
      * right. intros r [H|H]; [discriminate | exact (Hno r H)].
      * destruct (decide (q = p)) as [->|Hne].
        -- left. exists arr. left. reflexivity.
        -- right. intros r [H|H]; [congruence | exact (Hno r H)].
Qed.

Section DriverFacts.
Context {Labels : Type}.
Variable lr : Librosa.
Variable vqvae : VQVAE.
Variable top_prior : Prior Labels.
Variables input_dir output_dir : string.
Variable average_pool_slices : Z.

Abbreviation body flag :=
  (embed_one lr vqvae top_prior flag input_dir output_dir average_pool_slices).
Abbreviation loop flag :=
  (embed_loop lr vqvae top_prior flag input_dir output_dir average_pool_slices).
Abbreviation pipeline name :=
  (get_acts_from_file lr vqvae top_prior (input_dir, name) average_pool_slices).

(** The body when the cache branch is not taken. *)
Lemma embed_one_compute (flag : bool) (name : string) (w : World) :
  (flag = false \/ files w !! output_path_of output_dir name = None) ->
  body flag name w =
    match pipeline name (after_call w (Call_get_acts_from_file (input_dir, name))) with
    | (Ok r, w1) => (Ok tt, after_save w1 (output_path_of output_dir name) r)
    | (Raise e, w1) => (Raise e, w1)
    end.
Proof.
  intros H. unfold embed_one. rewrite bindM_run. unfold path_exists.
  assert (E : bool_decide (is_Some (files w !! output_path_of output_dir name)) && flag
              = false).
  { destruct H as [->|H]; [apply andb_false_r|].
    rewrite H. rewrite bool_decide_eq_false_2; [reflexivity|].
    intros [? ?]. discriminate. }
  rewrite E. rewrite bindM_run. unfold record.
  fold (after_call w (Call_get_acts_from_file (input_dir, name))).
  rewrite bindM_run.
  destruct (pipeline name _) as [[r|e] w1]; reflexivity.
Qed.

(** The body when the cache branch is taken. *)
Lemma embed_one_cached (name : string) (w : World) :
  is_Some (files w !! output_path_of output_dir name) ->
  body true name w
  = (Ok tt, after_call w (Call_np_load (output_path_of output_dir name))).
Proof.
  intros [arr Harr]. unfold embed_one. rewrite bindM_run. unfold path_exists.
  rewrite bool_decide_eq_true_2 by (exists arr; exact Harr).
  cbn [andb]. rewrite bindM_run. unfold np_load. rewrite bindM_run.
  unfold record. cbn [files]. rewrite Harr. reflexivity.
Qed.

Lemma embed_loop_cons (flag : bool) (name : string) (rest : list string) (w : World) :
  loop flag (name :: rest) w =
    match body flag name w with
    | (Ok _, w1) => loop flag rest w1
    | (Raise e, w1) => (Raise e, w1)
    end.
Proof. reflexivity. Qed.

Lemma embed_loop_app (flag : bool) (l1 l2 : list string) (w : World) :
  loop flag (l1 ++ l2) w =
    match loop flag l1 w with
    | (Ok _, w1) => loop flag l2 w1
    | (Raise e, w1) => (Raise e, w1)
    end.
Proof.
  revert w. induction l1 as [|name l1 IH]; intros w; [reflexivity|].
  cbn [app]. rewrite !embed_loop_cons.
  destruct (body flag name w) as [[u|e] w1]; [apply IH | reflexivity].
Qed.

Lemma pipeline_keeps_disk (name : string) (w : World) :
  files (snd (pipeline name w)) = files w
  /\ history (snd (pipeline name w)) = history w.
Proof. apply keeps_disk_get_acts_from_file. Qed.

(** With the cache flag off, a run that ends normally has made one
    pipeline call and one save per input, and what is on disk for a saved
    path is what the last save to that path wrote. *)
Lemma embed_loop_uncached_calls (names : list string) (w : World) :
  fst (loop false names w) = Ok tt ->
  exists reprs,
    length reprs = length names
    /\ history (snd (loop false names w))
       = history w ++ driver_calls input_dir output_dir (zip names reprs)
    /\ (forall p, (forall r, ~ In (Call_np_save p r)
                               (driver_calls input_dir output_dir (zip names reprs))) ->
                  files (snd (loop false names w)) !! p = files w !! p)
    /\ (forall p r, In (Call_np_save p r)
                      (driver_calls input_dir output_dir (zip names reprs)) ->
          exists r', files (snd (loop false names w)) !! p = Some r'
                     /\ In (Call_np_save p r')
                          (driver_calls input_dir output_dir (zip names reprs))).
Proof.
  revert w. induction names as [|name rest IH]; intros w Hok.
  - exists []. cbn. rewrite app_nil_r. repeat split; try reflexivity.
    intros p r [].
  - rewrite embed_loop_cons in Hok |- *.
    rewrite embed_one_compute in Hok |- * by (left; reflexivity).
    pose proof (pipeline_keeps_disk name
                  (after_call w (Call_get_acts_from_file (input_dir, name)))) as [Hf Hh].
    destruct (pipeline name _) as [[r|e] w1]; [|discriminate].
    cbn [snd] in Hf, Hh.
    destruct (IH _ Hok) as (reprs & Hlen & Hhist & Hkeep & Hsaved).
    exists (r :: reprs). split; [cbn [length]; congruence|].
    split.
    { rewrite Hhist. cbn [after_save history zip zip_with driver_calls flat_map fst snd].
      rewrite Hh. cbn [after_call history]. rewrite <- !app_assoc. reflexivity. }
    split.
    { intros p Hno. rewrite Hkeep.
      - cbn [after_save files]. rewrite lookup_insert_ne.
        + rewrite Hf. reflexivity.
        + intros <-. apply (Hno r). cbn. right. left. reflexivity.
      - intros r0 Hin. apply (Hno r0). cbn [zip zip_with driver_calls flat_map].
        apply in_or_app. right. exact Hin. }
    intros p r0 Hin.
    destruct (classic_in_saves p (driver_calls input_dir output_dir (zip rest reprs)))
      as [[r1 Hr1]|Hnone].
    + destruct (Hsaved p r1 Hr1) as (r' & Hl & Hin').
      exists r'. split; [exact Hl|].
      cbn [zip zip_with driver_calls flat_map]. apply in_or_app. right. exact Hin'.
    + rewrite (Hkeep p Hnone).
      cbn [zip zip_with driver_calls flat_map fst snd] in Hin.
      cbn [app] in Hin. destruct Hin as [Hin|[Hin|Hin]].
      * discriminate Hin.
      * injection Hin as <- <-. exists r. cbn [after_save files].
        rewrite lookup_insert_eq. split; [reflexivity|].
        cbn. right. left. reflexivity.
      * exfalso. apply (Hnone r0). exact Hin.
Qed.
End DriverFacts.

(** ** Too few tokens *)

Lemma get_z_too_short (vqvae : VQVAE) (audio : tensor Q) (top : tensor Z) :
  top_tokens vqvae audio = Ok top -> numel top < 8192 ->
  get_z vqvae audio = Raise (ValueError too_short_message).
Proof.
  intros Htop Hlt. unfold get_z. rewrite Htop. cbn [bind].
  unfold last_size, newaxis, flatten. cbn [shape last bind].
  destruct (Z.ltb_spec (numel top) 8192); [reflexivity | lia].
Qed.

Lemma get_z_long_enough (vqvae : VQVAE) (audio : tensor Q) (top : tensor Z) :
  top_tokens vqvae audio = Ok top -> 8192 <= numel top ->
  get_z vqvae audio = Ok (newaxis (flatten top)).
Proof.
  intros Htop Hge. unfold get_z. rewrite Htop. cbn [bind].
  unfold last_size, newaxis, flatten. cbn [shape last bind].
  destruct (Z.ltb_spec (numel top) 8192); [lia | reflexivity].
Qed.

Lemma get_acts_from_file_raises_at_get_z {Labels} (lr : Librosa) (vqvae : VQVAE)
    (top_prior : Prior Labels) (fpath : string * string) (meanpool : Z)
    (audio : tensor Q) (e : exn) (w : World) :
  audio_for_tokenizer lr fpath = Ok audio -> get_z vqvae audio = Raise e ->
  get_acts_from_file lr vqvae top_prior fpath meanpool w = (Raise e, w).
Proof.
  unfold audio_for_tokenizer. intros Ha Hz.
  unfold get_acts_from_file. rewrite bindM_run. unfold lift at 1.
  destruct (load_audio_from_file lr fpath) as [a0|?]; [|discriminate].
  cbn [bind] in Ha.
  unfold get_acts_from_array, tokens_and_conditioning. rewrite !bindM_run.
  unfold lift at 1.
  destruct (preprocess_audio lr a0 JUKEBOX_SAMPLE_RATE) as [a1|?]; [|discriminate].
  cbn [bind] in Ha. rewrite bindM_run. unfold lift at 1. rewrite Ha.
  rewrite bindM_run. unfold lift at 1. rewrite Hz. reflexivity.
Qed.

Lemma embed_from_folder_is_the_loop {Labels} (lr : Librosa) (vqvae : VQVAE)
    (top_prior : Prior Labels) (listing : list string)
    (input_dir output_dir : string) (average_pool_slices : Z) (w : World) :
  embed_from_folder lr vqvae top_prior listing input_dir output_dir
    average_pool_slices w
  = embed_loop lr vqvae top_prior USING_CACHED_FILE input_dir output_dir
      average_pool_slices (wav_inputs listing) (snd (load_vqvae_and_prior w)).
Proof. reflexivity. Qed.

(** C2.  When the coarsest level of the encoding of an input has fewer
    than 8192 tokens, get_z raises ValueError with its message; the per-file
    pipeline raises it and leaves the state as it was; the loop, having
    processed the files before it, stops there with that error, having
    called the pipeline for the input and saved nothing for it; and so does
    embed_from_folder. *)
Theorem short_token_sequence_aborts_the_batch {Labels} (lr : Librosa)
    (vqvae : VQVAE) (top_prior : Prior Labels) (input_dir output_dir name : string)
    (average_pool_slices : Z) (audio : tensor Q) (top : tensor Z) :
  audio_for_tokenizer lr (input_dir, name) = Ok audio ->
  top_tokens vqvae audio = Ok top ->
  numel top < 8192 ->
  get_z vqvae audio = Raise (ValueError too_short_message)
  /\ (forall w,
        get_acts_from_file lr vqvae top_prior (input_dir, name) average_pool_slices w
        = (Raise (ValueError too_short_message), w))
  /\ (forall before rest w,
        fst (embed_loop lr vqvae top_prior USING_CACHED_FILE input_dir output_dir
               average_pool_slices before w) = Ok tt ->
        embed_loop lr vqvae top_prior USING_CACHED_FILE input_dir output_dir
          average_pool_slices (before ++ name :: rest) w
        = (Raise (ValueError too_short_message),
           after_call
             (snd (embed_loop lr vqvae top_prior USING_CACHED_FILE input_dir
                     output_dir average_pool_slices before w))
             (Call_get_acts_from_file (input_dir, name))))
  /\ (forall listing before rest w,
        wav_inputs listing = before ++ name :: rest ->
        fst (embed_loop lr vqvae top_prior USING_CACHED_FILE input_dir output_dir
               average_pool_slices before (snd (load_vqvae_and_prior w))) = Ok tt ->
        embed_from_folder lr vqvae top_prior listing input_dir output_dir
          average_pool_slices w
        = (Raise (ValueError too_short_message),
           after_call
             (snd (embed_loop lr vqvae top_prior USING_CACHED_FILE input_dir
                     output_dir average_pool_slices before
                     (snd (load_vqvae_and_prior w))))
             (Call_get_acts_from_file (input_dir, name)))).
Proof.
  intros Ha Htop Hlt.
  pose proof (get_z_too_short vqvae audio top Htop Hlt) as Hz.
  assert (Hfile : forall w,
        get_acts_from_file lr vqvae top_prior (input_dir, name) average_pool_slices w
        = (Raise (ValueError too_short_message), w)).
  { intros w. apply (get_acts_from_file_raises_at_get_z lr vqvae top_prior _ _ audio);
      assumption. }
  assert (Hloop : forall before rest w,
        fst (embed_loop lr vqvae top_prior USING_CACHED_FILE input_dir output_dir
               average_pool_slices before w) = Ok tt ->
        embed_loop lr vqvae top_prior USING_CACHED_FILE input_dir output_dir
          average_pool_slices (before ++ name :: rest) w
        = (Raise (ValueError too_short_message),
           after_call
             (snd (embed_loop lr vqvae top_prior USING_CACHED_FILE input_dir
                     output_dir average_pool_slices before w))
             (Call_get_acts_from_file (input_dir, name)))).
  { intros before rest w Hok. rewrite embed_loop_app.
    destruct (embed_loop lr vqvae top_prior USING_CACHED_FILE input_dir output_dir
                average_pool_slices before w) as [[u|e] w1]; [|discriminate].
    cbn [snd]. rewrite embed_loop_cons.
    rewrite embed_one_compute by (left; reflexivity).
    rewrite Hfile. reflexivity. }
  split; [exact Hz|]. split; [exact Hfile|]. split; [exact Hloop|].
  intros listing before rest w Hin Hok.
  rewrite embed_from_folder_is_the_loop, Hin. apply Hloop. exact Hok.
Qed.

Lemma audio_for_tokenizer_four_samples (fpath : string * string) :
  audio_for_tokenizer same_rate_librosa fpath = Ok padded_four_samples.
Proof.
  unfold audio_for_tokenizer.
  assert (E : (a <- load_audio_from_file same_rate_librosa fpath ;;
               preprocess_audio same_rate_librosa a JUKEBOX_SAMPLE_RATE)
              = Ok (Tensor [4] [1; -1; 1 # 2; 0]%Q)) by (vm_compute; reflexivity).
  destruct (load_audio_from_file same_rate_librosa fpath) as [a0|e]; [|discriminate E].
  cbn [bind] in E |- *. rewrite E. cbn [bind].
  unfold zero_padding, size. cbn [shape lookup list_lookup bind].
  change (4 <? SAMPLE_LENGTH) with true. cbv iota.
  rewrite (audio_padding_appends_zeros (Tensor [4] [1; -1; 1 # 2; 0]%Q) 4
             SAMPLE_LENGTH eq_refl)
    by (unfold SAMPLE_LENGTH; lia).
  reflexivity.
Qed.

Lemma short_token_sequence_aborts_the_batch_witness :
  embed_from_folder same_rate_librosa short_vqvae small_prior
    ["track1.wav"] "in" "out" 32 world_with_track1
  = (Raise (ValueError too_short_message),
     after_call (snd (load_vqvae_and_prior world_with_track1))
       (Call_get_acts_from_file ("in", "track1.wav"))).
Proof.
  refine (proj2 (proj2 (proj2
            (short_token_sequence_aborts_the_batch same_rate_librosa short_vqvae
               small_prior "in" "out" "track1.wav" 32 padded_four_samples
               (Tensor [1; 100] (repeat 7 (Z.to_nat 100))) _ _ _)))
            ["track1.wav"] [] [] world_with_track1 _ _).
  - apply audio_for_tokenizer_four_samples.
  - reflexivity.
  - vm_compute. reflexivity.
  - vm_compute. reflexivity.
  - reflexivity.
Defined.

(** ** The cache branch *)

Lemma embed_loop_all_cached {Labels} (lr : Librosa) (vqvae : VQVAE)
    (top_prior : Prior Labels) (input_dir output_dir : string)
    (average_pool_slices : Z) (names : list string) (w0 w : World) :
  files w = files w0 ->
  Forall (fun n => is_Some (files w0 !! output_path_of output_dir n)) names ->
  embed_loop lr vqvae top_prior true input_dir output_dir average_pool_slices names w
  = (Ok tt,
     foldl after_call w
       (map (fun n => Call_np_load (output_path_of output_dir n)) names)).
Proof.
  intros Hf Hall. revert w Hf.
  induction Hall as [|n names Hn Hrest IH]; intros w Hf; [reflexivity|].
  rewrite embed_loop_cons.
  rewrite embed_one_cached by (rewrite Hf; exact Hn).
  cbn [map foldl]. apply IH. exact Hf.
Qed.

(** C6, as amended.  With the cache flag on and the output already on
    disk, the loop body loads the cached array, drops it and ends: the
    pipeline is not called, nothing is saved, the bundle is untouched, and
    the loop goes on with the next file; when every output is on disk, a
    run makes load calls only. *)
Theorem cache_hit_skips_the_pipeline {Labels} (lr : Librosa) (vqvae : VQVAE)
    (top_prior : Prior Labels) (input_dir output_dir name : string)
    (rest : list string) (average_pool_slices : Z) (w : World) :
  is_Some (files w !! output_path_of output_dir name) ->
  embed_one lr vqvae top_prior true input_dir output_dir average_pool_slices name w
  = (Ok tt, after_call w (Call_np_load (output_path_of output_dir name)))
  /\ embed_loop lr vqvae top_prior true input_dir output_dir average_pool_slices
       (name :: rest) w
     = embed_loop lr vqvae top_prior true input_dir output_dir average_pool_slices
         rest (after_call w (Call_np_load (output_path_of output_dir name)))
  /\ (Forall (fun n => is_Some (files w !! output_path_of output_dir n)) rest ->
      embed_loop lr vqvae top_prior true input_dir output_dir average_pool_slices
        (name :: rest) w
      = (Ok tt,
         foldl after_call w
           (map (fun n => Call_np_load (output_path_of output_dir n)) (name :: rest)))).
Proof.
  intros Hsome.
  pose proof (embed_one_cached lr vqvae top_prior input_dir output_dir
                average_pool_slices name w Hsome) as Hone.
  split; [exact Hone|]. split.
  - rewrite embed_loop_cons, Hone. reflexivity.
  - intros Hall.
    apply (embed_loop_all_cached lr vqvae top_prior input_dir output_dir
             average_pool_slices (name :: rest) w w eq_refl).
    constructor; assumption.
Qed.

Lemma cache_hit_skips_the_pipeline_witness :
  embed_loop same_rate_librosa long_vqvae small_prior true "in" "out" 32
    ["track1.wav"] world_with_track1
  = (Ok tt, after_call world_with_track1 (Call_np_load ("out", "track1.npy"))).
Proof.
  refine (proj2 (proj2 (cache_hit_skips_the_pipeline same_rate_librosa long_vqvae
                          small_prior "in" "out" "track1.wav" [] 32
                          world_with_track1 _)) _).
  - exists (Tensor [1; 1] [5%Q]). reflexivity.
  - constructor.
Defined.

(** C6, as stated, fails: with the flag on and [track1.npy] on disk, the
    run over [track1.wav] makes one load call and no pipeline call. *)
Lemma cache_hit_does_not_recompute :
  ~ cache_hit_recomputes same_rate_librosa long_vqvae small_prior.
Proof.
  intros H.
  specialize (H "in" "out" "track1.wav" [] 32 world_with_track1).
  assert (Hsome : is_Some (files world_with_track1
                             !! output_path_of "out" "track1.wav")).
  { exists (Tensor [1; 1] [5%Q]). reflexivity. }
  specialize (H Hsome).
  rewrite embed_loop_cons in H.
  rewrite (embed_one_cached same_rate_librosa long_vqvae small_prior "in" "out" 32
             "track1.wav" world_with_track1 Hsome) in H.
  cbn in H. destruct H as [H|[]]. discriminate H.
Qed.

(** ** The disabled cache flag *)

Lemma embed_loop_uncached_never_loads {Labels} (lr : Librosa) (vqvae : VQVAE)
    (top_prior : Prior Labels) (input_dir output_dir : string)
    (average_pool_slices : Z) (names : list string) (w : World) :
  exists calls,
    history (snd (embed_loop lr vqvae top_prior false input_dir output_dir
                    average_pool_slices names w))
    = history w ++ calls
    /\ forall p, ~ In (Call_np_load p) calls.
Proof.
  revert w. induction names as [|name rest IH]; intros w.
  - exists []. cbn. rewrite app_nil_r. split; [reflexivity | intros p []].
  - rewrite embed_loop_cons.
    rewrite embed_one_compute by (left; reflexivity).
    pose proof (pipeline_keeps_disk lr vqvae top_prior input_dir
                  average_pool_slices name
                  (after_call w (Call_get_acts_from_file (input_dir, name))))
      as [_ Hh].
    destruct (get_acts_from_file lr vqvae top_prior (input_dir, name)
                average_pool_slices _) as [[r|e] w1]; cbn [snd] in Hh.
    + destruct (IH (after_save w1 (output_path_of output_dir name) r))
        as (calls & Hc & Hno).
      exists (Call_get_acts_from_file (input_dir, name)
              :: Call_np_save (output_path_of output_dir name) r :: calls).
      split.
      * rewrite Hc. cbn [after_save history]. rewrite Hh. cbn [after_call history].
        rewrite <- !app_assoc. reflexivity.
      * intros p [Hp|[Hp|Hp]]; [discriminate | discriminate | exact (Hno p Hp)].
    + exists [Call_get_acts_from_file (input_dir, name)]. split.
      * cbn [snd]. rewrite Hh. reflexivity.
      * intros p [Hp|[]]. discriminate.
Qed.

(** C7.  The flag is off.  So the loop body calls the pipeline whatever is
    on disk, and saves what it returns; a run never loads; and a run that
    ends normally has called the pipeline and saved once for every [.wav]
    input, in order, so that each output path holds an array saved by this
    run. *)
Theorem disabled_cache_flag_never_skips {Labels} (lr : Librosa) (vqvae : VQVAE)
    (top_prior : Prior Labels) (listing : list string)
    (input_dir output_dir : string) (average_pool_slices : Z) (w : World) :
  USING_CACHED_FILE = false
  /\ (forall name w0,
        embed_one lr vqvae top_prior USING_CACHED_FILE input_dir output_dir
          average_pool_slices name w0
        = match get_acts_from_file lr vqvae top_prior (input_dir, name)
                  average_pool_slices
                  (after_call w0 (Call_get_acts_from_file (input_dir, name))) with
          | (Ok r, w1) => (Ok tt, after_save w1 (output_path_of output_dir name) r)
          | (Raise e, w1) => (Raise e, w1)
          end)
  /\ (exists calls,
        history (snd (embed_from_folder lr vqvae top_prior listing input_dir
                        output_dir average_pool_slices w))
        = history w ++ calls
        /\ forall p, ~ In (Call_np_load p) calls)
  /\ (fst (embed_from_folder lr vqvae top_prior listing input_dir output_dir
             average_pool_slices w) = Ok tt ->
      exists reprs,
        length reprs = length (wav_inputs listing)
        /\ history (snd (embed_from_folder lr vqvae top_prior listing input_dir
                           output_dir average_pool_slices w))
           = history w
             ++ driver_calls input_dir output_dir (zip (wav_inputs listing) reprs)
        /\ forall name, In name (wav_inputs listing) ->
             exists r,
               files (snd (embed_from_folder lr vqvae top_prior listing input_dir
                             output_dir average_pool_slices w))
               !! output_path_of output_dir name = Some r
               /\ In (Call_np_save (output_path_of output_dir name) r)
                    (driver_calls input_dir output_dir
                       (zip (wav_inputs listing) reprs))).
Proof.
  split; [reflexivity|]. split.
  { intros name w0. apply embed_one_compute. left. reflexivity. }
  rewrite embed_from_folder_is_the_loop.
  change (history w) with (history (snd (load_vqvae_and_prior w))).
  change USING_CACHED_FILE with false.
  split; [apply embed_loop_uncached_never_loads|].
  intros Hok.
  destruct (embed_loop_uncached_calls lr vqvae top_prior input_dir output_dir
              average_pool_slices (wav_inputs listing)
              (snd (load_vqvae_and_prior w)) Hok)
    as (reprs & Hlen & Hhist & _ & Hsaved).
  exists reprs. split; [exact Hlen|]. split; [exact Hhist|].
  intros name Hin.
  assert (Hcall : exists r, In (Call_np_save (output_path_of output_dir name) r)
                              (driver_calls input_dir output_dir
                                 (zip (wav_inputs listing) reprs))).
  { clear Hhist Hsaved Hok. revert reprs Hlen.
    induction (wav_inputs listing) as [|n names IH]; intros reprs Hlen;
      [destruct Hin|].
    destruct reprs as [|r reprs]; [discriminate Hlen|].
    cbn [zip zip_with driver_calls flat_map fst snd app].
    destruct Hin as [->|Hin].
    - exists r. right. left. reflexivity.
    - injection Hlen as Hlen. destruct (IH Hin reprs Hlen) as [r' Hr'].
      exists r'. right. right. exact Hr'. }
  destruct Hcall as [r Hr]. exact (Hsaved _ r Hr).
Qed.

Lemma disabled_cache_flag_never_skips_witness :
  exists reprs,
    length reprs = 2%nat
    /\ history (snd (embed_from_folder same_rate_librosa long_vqvae small_prior
                       ["track2.wav"; "notes.txt"; "track1.wav"] "in" "out" 2
                       world_with_track1))
       = driver_calls "in" "out" (zip ["track1.wav"; "track2.wav"] reprs).
Proof.
  destruct (proj2 (proj2 (proj2
              (disabled_cache_flag_never_skips same_rate_librosa long_vqvae
                 small_prior ["track2.wav"; "notes.txt"; "track1.wav"] "in" "out" 2
                 world_with_track1))))
    as (reprs & Hlen & Hhist & _).
  - vm_compute. reflexivity.
  - exists reprs. split; [exact Hlen | exact Hhist].
Defined.

(** The batch scenario: [track1.npy] is on disk before the run, and the run
    replaces it. *)
Example track1_is_recomputed :
  files (snd (embed_from_folder same_rate_librosa long_vqvae small_prior
                ["track2.wav"; "track1.wav"] "in" "out" 2 world_with_track1))
  !! ("out", "track1.npy")
  = Some (Tensor [2; 4800] (repeat 1%Q (Z.to_nat 9600))).
Proof. vm_compute. reflexivity. Qed.

Lemma conditioning_does_not_depend_on_audio_witness :
  snd (value_of (Tensor [] [], (Tensor [] [], Tensor [] []))
         (fst (tokens_and_conditioning same_rate_librosa long_vqvae small_prior
                 loud_stereo 44100 world_with_track1)))
  = snd (value_of (Tensor [] [], (Tensor [] [], Tensor [] []))
           (fst (tokens_and_conditioning same_rate_librosa long_vqvae small_prior
                   short_mono 22050 world_with_track1))).
Proof.
  refine (proj1 (conditioning_does_not_depend_on_audio same_rate_librosa long_vqvae
                   small_prior)
            loud_stereo 44100 short_mono 22050 world_with_track1 world_with_track1
            (fst (value_of (Tensor [] [], (Tensor [] [], Tensor [] []))
               (fst (tokens_and_conditioning same_rate_librosa long_vqvae small_prior
                       loud_stereo 44100 world_with_track1))))
            _
            (snd (tokens_and_conditioning same_rate_librosa long_vqvae small_prior
                    loud_stereo 44100 world_with_track1))
            (fst (value_of (Tensor [] [], (Tensor [] [], Tensor [] []))
               (fst (tokens_and_conditioning same_rate_librosa long_vqvae small_prior
                       short_mono 22050 world_with_track1))))
            _
            (snd (tokens_and_conditioning same_rate_librosa long_vqvae small_prior
                    short_mono 22050 world_with_track1))
            eq_refl eq_refl _ _).
  - vm_compute. reflexivity.
  - vm_compute. reflexivity.
Defined.

(** * Further properties of the script *)

(** ** Pooling on any number of rows *)

Lemma view_windows_inv {A} (t a : tensor A) (m h : Z) :
  0 < h -> m <> 0 -> view t [m; -1; h] = Ok a ->
  0 < m /\ exists q, a = Tensor [m; q; h] (data t).
Proof.
  intros Hh Hm Hv. unfold view, infer_size in Hv. cbn [infer_scan] in Hv.
  destruct (Z.eqb_spec m (-1)) as [E|E]; [discriminate Hv|].
  destruct (Z.leb_spec 0 m) as [Hle|Hlt]; [|discriminate Hv].
  change (-1 =? -1) with true in Hv. cbv iota in Hv.
  destruct (Z.eqb_spec h (-1)) as [E'|E']; [lia|].
  destruct (Z.leb_spec 0 h); [|lia].
  cbn [bind] in Hv.
  destruct ((numel t =? 1 * m * h)
            || true && (0 <? 1 * m * h) && (numel t mod (1 * m * h) =? 0));
    [|discriminate Hv].
  destruct (1 * m * h =? 0); [discriminate Hv|].
  cbn [map bind] in Hv.
  destruct (Z.eqb_spec m (-1)); [contradiction|].
  destruct (Z.eqb_spec h (-1)); [contradiction|].
  change (-1 =? -1) with true in Hv. cbv iota in Hv.
  injection Hv as <-.
  split; [lia|]. eexists. reflexivity.
Qed.

Lemma squeeze_rows (d : list Q) (n : Z) :
  n <> 1 -> squeeze (Tensor [n; 4800] d) = Tensor [n; 4800] d.
Proof.
  intros Hn. unfold squeeze. cbn [shape data]. f_equal.
  rewrite filter_cons_True by assumption.
  rewrite filter_cons_True by discriminate. reflexivity.
Qed.

Lemma squeeze_batch_of_rows (d : list Q) (n : Z) :
  n <> 1 -> squeeze (Tensor [1; n; 4800] d) = Tensor [n; 4800] d.
Proof.
  intros Hn. unfold squeeze. cbn [shape data]. f_equal.
  rewrite filter_cons_False by (intros H; apply H; reflexivity).
  rewrite filter_cons_True by assumption.
  rewrite filter_cons_True by discriminate. reflexivity.
Qed.

(** X1.  The pooling works on the row count that the tensor has, with or
    without the batch axis of size 1 that the prior returns: [n > 1] rows
    and a positive [m] that divides [n] give [m] rows, row [i] being the
    mean of the [n/m] input rows from row [(n/m)*i]. *)
Theorem pooling_on_any_row_count (acts : tensor Q) (n m : Z) :
  (shape acts = [n; 4800] \/ shape acts = [1; n; 4800]) ->
  1 < n -> 0 < m -> n mod m = 0 ->
  exists out,
    pool_activations acts m = Ok out
    /\ shape out = [m; 4800]
    /\ Z.of_nat (length (data out)) = m * 4800
    /\ forall i j, 0 <= i < m -> 0 <= j < 4800 ->
         item2 0%Q out i j
         = Qmean (map (fun k => nth (Z.to_nat ((n / m * i + k) * 4800 + j))
                                  (data acts) 0%Q)
                    (range (n / m))).
Proof.
  intros Hs Hn Hm Hdiv.
  exists (window_means (data acts) m (n / m) 4800).
  assert (Hsq : squeeze acts = Tensor [n; 4800] (data acts)).
  { destruct acts as [s d]. cbn [shape data] in *. destruct Hs as [->| ->].
    - apply squeeze_rows. lia.
    - apply squeeze_batch_of_rows. lia. }
  split.
  { unfold pool_activations. rewrite Hsq. unfold size.
    cbn [shape lookup list_lookup bind]. unfold py_mod.
    destruct (Z.eqb_spec m 0); [lia|]. cbn [bind]. rewrite Hdiv. cbn [Z.eqb].
    rewrite (view_windows (Tensor [n; 4800] (data acts)) n 4800 m);
      [| unfold numel; cbn [shape numel_of foldr]; lia | lia | lia | assumption].
    cbn [bind data]. apply mean_dim_windows. }
  split; [reflexivity|].
  split; [apply window_means_length; lia|].
  intros i j Hi Hj. apply window_means_item; [|assumption|assumption].
  apply Z.div_pos; lia.
Qed.

Lemma pooling_on_any_row_count_witness :
  exists out, pool_activations two_row_acts 2 = Ok out /\ shape out = [2; 4800].
Proof.
  destruct (pooling_on_any_row_count two_row_acts 2 2) as (out & H1 & H2 & _).
  - right. reflexivity.
  - lia.
  - lia.
  - reflexivity.
  - exists out. split; assumption.
Defined.

Lemma pool_activations_inv (acts out : tensor Q) (meanpool : Z) :
  pool_activations acts meanpool = Ok out ->
  0 < meanpool /\ shape out = [meanpool; 4800] /\ well_formed out.
Proof.
  unfold pool_activations.
  destruct (size (squeeze acts) 0) as [n|e]; [|discriminate]. cbn [bind].
  unfold py_mod. destruct (Z.eqb_spec meanpool 0) as [E|Hm]; [discriminate|].
  cbn [bind]. destruct (n mod meanpool =? 0); [|discriminate].
  destruct (view (squeeze acts) [meanpool; -1; 4800]) as [a|e] eqn:Hv; [|discriminate].
  cbn [bind].
  destruct (view_windows_inv (squeeze acts) a meanpool 4800 ltac:(lia) Hm Hv)
    as (Hpos & q & ->).
  rewrite mean_dim_windows. intros [= <-].
  split; [assumption|]. split; [reflexivity|]. split.
  - cbn [window_means shape]. repeat constructor; lia.
  - rewrite window_means_length by lia.
    unfold numel. cbn [window_means shape numel_of foldr]. lia.
Qed.

(** X2.  Whatever the activations are, a pooling that returns has
    returned an array of shape (meanpool, 4800) with meanpool positive and
    as many entries as the shape says. *)
Theorem pooling_output_shape (acts out : tensor Q) (meanpool : Z) :
  pool_activations acts meanpool = Ok out ->
  0 < meanpool /\ shape out = [meanpool; 4800] /\ well_formed out.
Proof. apply pool_activations_inv. Qed.

Lemma pooling_output_shape_witness :
  shape (value_of (Tensor [] []) (pool_activations two_row_acts 1)) = [1; 4800].
Proof.
  refine (proj1 (proj2 (pooling_output_shape two_row_acts
                          (value_of (Tensor [] []) (pool_activations two_row_acts 1))
                          1 _))).
  vm_compute. reflexivity.
Defined.

(** ** Amplitudes after preprocessing *)

Lemma normalize_bounded (mono out : tensor Q) :
  normalize mono = Ok out -> forall x, In x (data out) -> (Qabs x <= 1)%Q.
Proof.
  unfold normalize.
  destruct (np_max (np_abs mono)) as [p|e] eqn:Hp; [|discriminate].
  cbn [bind]. destruct (np_max_abs_spec mono p Hp) as [_ Hub].
  destruct (Qgt0 p) eqn:Hg; intros [= <-] x Hx; cbn [flatten data np_div_scalar] in Hx.
  - apply Qgt0_true in Hg. apply in_map_iff in Hx. destruct Hx as (y & <- & Hy).
    unfold Qdiv. rewrite Qabs_Qmult, Qabs_Qinv.
    rewrite (Qabs_pos p) by (apply Qlt_le_weak; assumption).
    apply Qle_shift_div_r; [assumption|]. rewrite Qmult_1_l. apply Hub. assumption.
  - assert (Hle : (p <= 0)%Q).
    { apply Qnot_lt_le. intros Hlt. apply Qgt0_true in Hlt. congruence. }
    apply Qle_trans with p; [apply Hub; assumption|].
    apply Qle_trans with 0%Q; [assumption | discriminate].
Qed.

(** X3.  When the resampled input has at least one entry, so that no mean
    and no maximum is taken over nothing, every sample of the buffer that
    preprocess_audio returns lies in [-1, 1]. *)
Theorem preprocess_output_is_bounded (lr : Librosa) (audio out : tensor Q) (sr : Z) :
  well_formed (lr_resample lr audio sr JUKEBOX_SAMPLE_RATE) ->
  numel (lr_resample lr audio sr JUKEBOX_SAMPLE_RATE) <> 0 ->
  preprocess_audio lr audio sr = Ok out ->
  forall x, In x (data out) -> (-1 <= x <= 1)%Q.
Proof.
  intros _ _. unfold preprocess_audio.
  destruct (downmix lr audio sr) as [mono|e]; [|discriminate].
  cbn [bind]. intros Hn x Hx.
  exact (proj1 (Qabs_Qle_condition x 1) (normalize_bounded mono out Hn x Hx)).
Qed.

Lemma preprocess_output_is_bounded_witness : (-1 <= 8 # 8 <= 1)%Q.
Proof.
  refine (preprocess_output_is_bounded same_rate_librosa loud_stereo
            (value_of (Tensor [] [])
               (preprocess_audio same_rate_librosa loud_stereo 44100)) 44100 _ _ _
            (8 # 8)%Q _).
  - split; [repeat constructor; lia | reflexivity].
  - vm_compute. discriminate.
  - vm_compute. reflexivity.
  - vm_compute. left. reflexivity.
Defined.

(** ** Padding on its own *)

(** X4.  audio_padding only ever appends zeros: when it returns, its
    argument was a one-dimensional buffer of at most [target_length]
    samples and the result is that buffer followed by the missing zeros;
    on a longer one-dimensional buffer it raises ValueError. *)
Theorem audio_padding_never_truncates (audio : tensor Q) (target_length : Z) :
  (forall out, audio_padding audio target_length = Ok out ->
     exists n,
       shape audio = [n] /\ n <= target_length
       /\ out = Tensor [n + (target_length - n)]
                  (data audio ++ repeat 0%Q (Z.to_nat (target_length - n))))
  /\ (forall n, shape audio = [n] -> target_length < n ->
        audio_padding audio target_length
        = Raise (ValueError "negative dimensions are not allowed")).
Proof.
  split.
  - intros out. unfold audio_padding, size.
    destruct (shape audio) as [|n ra] eqn:Hs; [discriminate|].
    cbn [lookup list_lookup bind]. unfold np_zeros.
    destruct (Z.ltb_spec (target_length - n) 0); [discriminate|].
    cbn [bind]. unfold np_concatenate. rewrite Hs. cbn [shape data].
    destruct (decide (ra = [])) as [->|Hne]; [|discriminate].
    intros [= <-]. exists n. split; [reflexivity|]. split; [lia | reflexivity].
  - intros n Hs Hlt. unfold audio_padding, size. rewrite Hs.
    cbn [lookup list_lookup bind]. unfold np_zeros.
    destruct (Z.ltb_spec (target_length - n) 0); [reflexivity | lia].
Qed.

Lemma audio_padding_never_truncates_witness :
  audio_padding short_mono 1
  = Raise (ValueError "negative dimensions are not allowed")
  /\ audio_padding short_mono 4
     = Ok (Tensor [4] [1; 1 # 2; 0; 0]%Q).
Proof.
  split.
  - apply (proj2 (audio_padding_never_truncates short_mono 1) 2); [reflexivity | lia].
  - destruct (proj1 (audio_padding_never_truncates short_mono 4)
                (Tensor [4] [1; 1 # 2; 0; 0]%Q) eq_refl) as (n & Hn & _ & _).
    reflexivity.
Defined.

(** ** Preprocessing twice *)

Lemma map_nth_seq {B C} (f : B -> C) (d : B) (l : list B) :
  map (fun i => f (nth i l d)) (seq 0 (length l)) = map f l.
Proof.
  induction l as [|a l IH]; [reflexivity|].
  cbn [length seq map nth]. f_equal.
  rewrite <- seq_shift, map_map. exact IH.
Qed.

Lemma Qmean_singleton (x : Q) : (Qmean [x] == x)%Q.
Proof.
  unfold Qmean, Qsum. cbn [foldr length Z.of_nat Pos.of_succ_nat].
  rewrite Qplus_0_r. unfold Qdiv. change (/ inject_Z 1)%Q with 1%Q.
  apply Qmult_1_r.
Qed.

(** The channel average of a single channel. *)
Lemma mean_of_one_channel (d : list Q) (n : Z) :
  length d = Z.to_nat n ->
  exists d',
    mean_dim (Tensor [1; n] d) 0 = Ok (Tensor [n] d') /\ Forall2 Qeq d' d.
Proof.
  intros Hl. rewrite mean_dim_channels. eexists. split; [reflexivity|].
  rewrite <- Hl. change (Z.to_nat 1) with 1%nat.
  unfold lane. cbn [seq map Nat.mul Nat.add].
  rewrite (map_nth_seq (fun x => Qmean [x]) 0%Q d).
  clear Hl. induction d as [|a d IH]; cbn [map]; constructor.
  - apply Qmean_singleton.
  - exact IH.
Qed.

Lemma Forall2_Qeq_In_l (l l' : list Q) (x : Q) :
  Forall2 Qeq l l' -> In x l -> exists y, In y l' /\ (x == y)%Q.
Proof.
  induction 1 as [|a b l l' Hab _ IH]; intros Hin; [destruct Hin|].
  destruct Hin as [<-|Hin].
  - exists b. split; [left; reflexivity | exact Hab].
  - destruct (IH Hin) as (y & Hy & E). exists y. split; [right; exact Hy | exact E].
Qed.

Lemma Forall2_Qeq_In_r (l l' : list Q) (y : Q) :
  Forall2 Qeq l l' -> In y l' -> exists x, In x l /\ (x == y)%Q.
Proof.
  induction 1 as [|a b l l' Hab _ IH]; intros Hin; [destruct Hin|].
  destruct Hin as [<-|Hin].
  - exists a. split; [left; reflexivity | exact Hab].
  - destruct (IH Hin) as (x & Hx & E). exists x. split; [right; exact Hx | exact E].
Qed.

Lemma Forall2_Qeq_map_l (f : Q -> Q) (l l' : list Q) :
  (forall x, In x l -> (f x == x)%Q) -> Forall2 Qeq l l' ->
  Forall2 Qeq (map f l) l'.
Proof.
  intros Hf H. induction H as [|a b l l' Hab _ IH]; cbn [map]; constructor.
  - rewrite (Hf a) by (left; reflexivity). exact Hab.
  - apply IH. intros x Hx. apply Hf. right. exact Hx.
Qed.

(** What normalize returns has peak 1 or is silent. *)
Lemma normalize_peak_or_silent (mono out : tensor Q) :
  normalize mono = Ok out -> max_abs_is (data out) 1 \/ silent (data out).
Proof.
  intros Hn. unfold normalize in Hn.
  destruct (np_max (np_abs mono)) as [p|e] eqn:Hp; [|discriminate].
  cbn [bind] in Hn. destruct (np_max_abs_spec mono p Hp) as [(xm & Hxm & Hpm) Hub].
  destruct (Qgt0 p) eqn:Hg.
  - left. apply Qgt0_true in Hg.
    assert (Ha : audible (data mono)).
    { exists xm. split; [assumption|]. intros E.
      apply Qabs_zero_iff in E. rewrite Hpm in E. rewrite E in Hg.
      apply (Qlt_irrefl _ Hg). }
    destruct (normalize_audible mono Ha) as (p' & _ & Hp' & Hn' & Hmax).
    rewrite Hp in Hp'. injection Hp' as <-.
    injection Hn as <-. exact Hmax.
  - right. injection Hn as <-. cbn [flatten data].
    assert (Hle : (p <= 0)%Q).
    { apply Qnot_lt_le. intros Hlt. apply Qgt0_true in Hlt. congruence. }
    apply Forall_forall. intros x Hx. apply list_elem_of_In in Hx.
    apply Qabs_zero_iff. apply Qle_antisym; [|apply Qabs_nonneg].
    apply Qle_trans with p; [apply Hub; assumption | assumption].
Qed.

(** Normalising a buffer of peak 1, or a silent one, changes no value. *)
Lemma normalize_again (t out : tensor Q) :
  max_abs_is (data t) 1 \/ silent (data t) ->
  normalize t = Ok out -> Forall2 Qeq (data out) (data t).
Proof.
  intros Hcase Hn. unfold normalize in Hn.
  destruct (np_max (np_abs t)) as [p|e] eqn:Hp; [|discriminate].
  cbn [bind] in Hn. destruct (np_max_abs_spec t p Hp) as [(xm & Hxm & Hpm) Hub].
  destruct (Qgt0 p) eqn:Hg; injection Hn as <-; cbn [flatten np_div_scalar data].
  - apply Qgt0_true in Hg.
    assert (Hone : (p == 1)%Q).
    { destruct Hcase as [[(x1 & Hx1 & Ex1) Hle]|Hs].
      - apply Qle_antisym.
        + rewrite <- Hpm. apply Hle. assumption.
        + rewrite <- Ex1. apply Hub. assumption.
      - exfalso. unfold silent in Hs. rewrite Forall_forall in Hs.
        assert (E : (xm == 0)%Q) by (apply Hs, list_elem_of_In; assumption).
        apply Qabs_zero_iff in E. rewrite Hpm in E. rewrite E in Hg.
        apply (Qlt_irrefl _ Hg). }
    apply Forall2_Qeq_map_l.
    + intros x _. rewrite Hone. unfold Qdiv. change (/ 1)%Q with 1%Q.
      apply Qmult_1_r.
    + clear. induction (data t); constructor; [reflexivity | assumption].
  - clear. induction (data t); constructor; [reflexivity | assumption].
Qed.

Lemma max_abs_is_Forall2 (l l' : list Q) (p : Q) :
  Forall2 Qeq l l' -> max_abs_is l' p -> max_abs_is l p.
Proof.
  intros H [(y & Hy & Ey) Hle]. split.
  - destruct (Forall2_Qeq_In_r l l' y H Hy) as (x & Hx & E).
    exists x. split; [assumption|]. rewrite E. exact Ey.
  - intros x Hx. destruct (Forall2_Qeq_In_l l l' x H Hx) as (y' & Hy' & E).
    rewrite E. apply Hle. assumption.
Qed.

Lemma silent_Forall2 (l l' : list Q) :
  Forall2 Qeq l l' -> silent l' -> silent l.
Proof.
  intros H Hs. unfold silent in *. rewrite Forall_forall in Hs |- *.
  intros x Hx. apply list_elem_of_In in Hx.
  destruct (Forall2_Qeq_In_l l l' x H Hx) as (y & Hy & E).
  rewrite E. apply Hs, list_elem_of_In. assumption.
Qed.

Lemma Forall2_Qeq_trans (l1 l2 l3 : list Q) :
  Forall2 Qeq l1 l2 -> Forall2 Qeq l2 l3 -> Forall2 Qeq l1 l3.
Proof.
  intros H. revert l3. induction H as [|a b l l' Hab _ IH]; intros l3 H3.
  - inversion H3. constructor.
  - inversion H3 as [|? c ? l3' Hbc Hrest]; subst. constructor.
    + rewrite Hab. exact Hbc.
    + apply IH. exact Hrest.
Qed.

(** X5.  get_acts_from_file preprocesses the decoded audio in
    load_audio_from_file and again in get_acts_from_array.  With a
    resampler that returns its input when the two rates are equal, the
    second pass returns a buffer of the same shape with the same values. *)
Theorem preprocessing_twice_changes_nothing
    (lr : Librosa) (audio out1 : tensor Q) (sr : Z) :
  (forall y, lr_resample lr y JUKEBOX_SAMPLE_RATE JUKEBOX_SAMPLE_RATE = y) ->
  preprocess_audio lr audio sr = Ok out1 ->
  exists out2,
    preprocess_audio lr out1 JUKEBOX_SAMPLE_RATE = Ok out2
    /\ shape out2 = shape out1
    /\ Forall2 Qeq (data out2) (data out1).
Proof.
  intros Hid H1.
  pose proof H1 as H1'. unfold preprocess_audio in H1'.
  destruct (downmix lr audio sr) as [mono|e] eqn:Hd; [|discriminate].
  cbn [bind] in H1'.
  destruct (downmix_shape lr audio sr mono Hd) as (c & n & _ & Hs & Hl).
  destruct (normalize_shape mono out1 n Hs Hl H1') as (Hs1 & Hl1 & Hpos).
  pose proof (normalize_peak_or_silent mono out1 H1') as Hcase.
  assert (Hlen : length (data out1) = Z.to_nat n) by lia.
  destruct (mean_of_one_channel (data out1) n Hlen) as (d' & Hmean & Hd').
  assert (Hdown : downmix lr out1 JUKEBOX_SAMPLE_RATE = Ok (Tensor [n] d')).
  { unfold downmix. rewrite Hid. unfold ndim. rewrite Hs1.
    cbn [length Z.of_nat Pos.of_succ_nat Z.eqb Pos.eqb].
    unfold newaxis. rewrite Hs1.
    cbn [shape length Z.of_nat Pos.of_succ_nat Pos.succ Z.eqb Pos.eqb].
    exact Hmean. }
  assert (Hne : data (Tensor [n] d') <> []).
  { cbn [data]. intros ->. apply Forall2_length in Hd'.
    cbn [length] in Hd'. lia. }
  destruct (np_max_abs_total _ Hne) as [p Hp].
  assert (Hn2 : exists out2, normalize (Tensor [n] d') = Ok out2).
  { unfold normalize. rewrite Hp. cbn [bind]. eexists. reflexivity. }
  destruct Hn2 as [out2 Hn2].
  exists out2. split; [unfold preprocess_audio; rewrite Hdown; exact Hn2|].
  split.
  - destruct (normalize_shape (Tensor [n] d') out2 n eq_refl) as (Hs2 & _ & _);
      [| exact Hn2 | congruence].
    cbn [data]. rewrite <- Hlen. exact (Forall2_length _ _ _ Hd').
  - apply Forall2_Qeq_trans with d'; [|exact Hd'].
    apply (normalize_again (Tensor [n] d') out2); [|exact Hn2].
    cbn [data]. destruct Hcase as [Hm|Hsil].
    + left. exact (max_abs_is_Forall2 _ _ _ Hd' Hm).
    + right. exact (silent_Forall2 _ _ Hd' Hsil).
Qed.

Lemma preprocessing_twice_changes_nothing_witness :
  exists out2,
    preprocess_audio same_rate_librosa (Tensor [2] [8 # 8; 0 # 8]%Q)
      JUKEBOX_SAMPLE_RATE = Ok out2
    /\ shape out2 = [2].
Proof.
  destruct (preprocessing_twice_changes_nothing same_rate_librosa loud_stereo
              (Tensor [2] [8 # 8; 0 # 8]%Q) 44100)
    as (out2 & H1 & H2 & _).
  - intros y. reflexivity.
  - vm_compute. reflexivity.
  - exists out2. split; [exact H1 | exact H2].
Defined.

(** ** What the encoder is given *)

Lemma preprocess_output_shape (lr : Librosa) (audio a : tensor Q) (sr : Z) :
  preprocess_audio lr audio sr = Ok a ->
  exists n, shape a = [n] /\ Z.of_nat (length (data a)) = n /\ 0 < n.
Proof.
  unfold preprocess_audio.
  destruct (downmix lr audio sr) as [mono|e] eqn:Hd; [|discriminate].
  cbn [bind]. intros Hn.
  destruct (downmix_shape lr audio sr mono Hd) as (c & n & _ & Hs & Hl).
  exists n. exact (normalize_shape mono a n Hs Hl Hn).
Qed.

Lemma zero_padding_output (a : tensor Q) (n : Z) :
  shape a = [n] -> Z.of_nat (length (data a)) = n ->
  exists b k,
    zero_padding a = Ok b /\ shape b = [k] /\ Z.of_nat (length (data b)) = k
    /\ k = Z.max n SAMPLE_LENGTH.
Proof.
  intros Hs Hl. unfold zero_padding, size. rewrite Hs.
  cbn [lookup list_lookup bind].
  destruct (Z.ltb_spec n SAMPLE_LENGTH) as [Hlt|Hge].
  - rewrite (audio_padding_appends_zeros a n SAMPLE_LENGTH Hs) by lia.
    eexists. exists SAMPLE_LENGTH. split; [reflexivity|].
    cbn [shape data]. split; [f_equal; lia|].
    split; [rewrite length_app, repeat_length; lia | lia].
  - exists a, n. split; [reflexivity|]. split; [assumption|].
    split; [assumption | lia].
Qed.

Lemma top_tokens_of_samples (vqvae : VQVAE) (b : tensor Q) (k : Z) :
  shape b = [k] ->
  top_tokens vqvae b
  = match last (encode vqvae
                  (Tensor [1; Z.min (JUKEBOX_SAMPLE_RATE * 25) k; 1]
                     (take (Z.to_nat (Z.min (JUKEBOX_SAMPLE_RATE * 25) k)) (data b)))) with
    | Some top => Ok top
    | None => Raise IndexError
    end.
Proof.
  intros Hs. unfold top_tokens, slice0. rewrite Hs. cbn [bind].
  unfold batch_and_channel_axes. cbn [shape data bind numel_of foldr].
  rewrite Z.mul_1_r. reflexivity.
Qed.

(** X6.  A buffer of [n0] samples that preprocess_audio returns is
    always padded successfully, to [max(n0, 1048576)] samples, and the
    encoder is then called on a tensor of shape (1, k, 1) that holds its
    first [k = min(1102500, max(n0, 1048576))] samples. *)
Theorem encoder_input_size (lr : Librosa) (audio a : tensor Q) (sr : Z) :
  preprocess_audio lr audio sr = Ok a ->
  exists n0 b n k,
    shape a = [n0]
    /\ zero_padding a = Ok b
    /\ shape b = [n] /\ Z.of_nat (length (data b)) = n
    /\ n = Z.max n0 1048576
    /\ k = Z.min 1102500 n
    /\ 1048576 <= k <= 1102500
    /\ forall vqvae,
         top_tokens vqvae b
         = match last (encode vqvae (Tensor [1; k; 1] (take (Z.to_nat k) (data b)))) with
           | Some top => Ok top
           | None => Raise IndexError
           end.
Proof.
  intros Hp.
  destruct (preprocess_output_shape lr audio a sr Hp) as (n0 & Hs & Hl & Hpos).
  destruct (zero_padding_output a n0 Hs Hl) as (b & n & Hz & Hsb & Hlb & Hn).
  exists n0, b, n, (Z.min (JUKEBOX_SAMPLE_RATE * 25) n).
  split; [exact Hs|]. split; [exact Hz|]. split; [exact Hsb|]. split; [exact Hlb|].
  unfold SAMPLE_LENGTH, JUKEBOX_SAMPLE_RATE in *.
  split; [lia|]. split; [reflexivity|]. split; [lia|].
  intros vqvae. apply (top_tokens_of_samples vqvae b n Hsb).
Qed.

Lemma encoder_input_size_witness :
  exists b n k,
    zero_padding (Tensor [2] [8 # 8; 0 # 8]%Q) = Ok b
    /\ shape b = [n] /\ 1048576 <= k <= 1102500.
Proof.
  destruct (encoder_input_size same_rate_librosa loud_stereo
              (Tensor [2] [8 # 8; 0 # 8]%Q) 44100)
    as (n0 & b & n & k & _ & H1 & H2 & _ & _ & _ & H4 & _).
  - vm_compute. reflexivity.
  - exists b, n, k. split; [exact H1|]. split; [exact H2 | exact H4].
Defined.

(** X7.  get_z reads the first 25 seconds only: two one-dimensional
    buffers of at least 1102500 samples that agree on their first
    1102500 samples give the same result, tokens or error. *)
Theorem get_z_reads_the_first_25_seconds (vqvae : VQVAE) (a1 a2 : tensor Q)
    (n1 n2 : Z) :
  shape a1 = [n1] -> shape a2 = [n2] ->
  JUKEBOX_SAMPLE_RATE * 25 <= n1 -> JUKEBOX_SAMPLE_RATE * 25 <= n2 ->
  take (Z.to_nat (JUKEBOX_SAMPLE_RATE * 25)) (data a1)
  = take (Z.to_nat (JUKEBOX_SAMPLE_RATE * 25)) (data a2) ->
  get_z vqvae a1 = get_z vqvae a2.
Proof.
  intros H1 H2 Hn1 Hn2 Ht. unfold get_z.
  rewrite (top_tokens_of_samples vqvae a1 n1 H1).
  rewrite (top_tokens_of_samples vqvae a2 n2 H2).
  rewrite !Z.min_l by assumption. rewrite Ht. reflexivity.
Qed.

Lemma get_z_reads_the_first_25_seconds_witness :
  get_z long_vqvae silence_25s = get_z long_vqvae silence_25s_and_a_click.
Proof.
  apply (get_z_reads_the_first_25_seconds long_vqvae silence_25s
           silence_25s_and_a_click (JUKEBOX_SAMPLE_RATE * 25)
           (JUKEBOX_SAMPLE_RATE * 25 + 1) eq_refl eq_refl).
  - lia.
  - lia.
  - unfold silence_25s, silence_25s_and_a_click. cbn [data].
    rewrite take_app_length' by (symmetry; apply repeat_length).
    apply take_ge. rewrite repeat_length. lia.
Defined.

(** ** What get_z returns *)

Lemma get_z_inv (vqvae : VQVAE) (audio : tensor Q) (z : tensor Z) :
  get_z vqvae audio = Ok z ->
  exists top,
    top_tokens vqvae audio = Ok top
    /\ z = Tensor [1; numel top] (data top)
    /\ 8192 <= numel top.
Proof.
  unfold get_z.
  destruct (top_tokens vqvae audio) as [top|e]; [|discriminate].
  cbn [bind]. unfold last_size, newaxis, flatten. cbn [shape last bind].
  destruct (Z.ltb_spec (numel top) 8192); [discriminate|].
  intros [= <-]. exists top. split; [reflexivity|]. split; [reflexivity | assumption].
Qed.

(** X8.  A result of get_z is the coarsest level of the encoding, all of
    it, as one row of at least 8192 tokens; with an encoder that returns
    no level, get_z raises IndexError. *)
Theorem get_z_returns_one_long_row (vqvae : VQVAE) (audio : tensor Q) :
  (forall z, get_z vqvae audio = Ok z ->
     exists top,
       top_tokens vqvae audio = Ok top
       /\ z = Tensor [1; numel top] (data top)
       /\ 8192 <= numel top)
  /\ ((forall x, encode vqvae x = []) -> get_z vqvae audio = Raise IndexError).
Proof.
  split.
  - intros z. apply get_z_inv.
  - intros Hnone. unfold get_z, top_tokens.
    destruct (slice0 audio (JUKEBOX_SAMPLE_RATE * 25)) as [a|e] eqn:Hsl.
    + cbn [bind]. destruct (batch_and_channel_axes a) as [x|e] eqn:Hx.
      * cbn [bind]. rewrite Hnone. reflexivity.
      * unfold batch_and_channel_axes in Hx.
        destruct (shape a); [injection Hx as <-; reflexivity | discriminate].
    + unfold slice0 in Hsl.
      destruct (shape audio); [injection Hsl as <-; reflexivity | discriminate].
Qed.

Lemma padded_four_samples_tokens :
  get_z long_vqvae padded_four_samples
  = Ok (Tensor [1; 8192] (repeat 7 (Z.to_nat 8192))).
Proof.
  rewrite (get_z_long_enough long_vqvae padded_four_samples
             (Tensor [1; 8192] (repeat 7 (Z.to_nat 8192)))).
  - reflexivity.
  - reflexivity.
  - vm_compute. discriminate.
Qed.

Lemma get_z_returns_one_long_row_witness :
  get_z levelless_vqvae short_mono = Raise IndexError
  /\ exists top,
       top_tokens long_vqvae padded_four_samples = Ok top /\ 8192 <= numel top.
Proof.
  split.
  - apply (proj2 (get_z_returns_one_long_row levelless_vqvae short_mono)).
    intros x. reflexivity.
  - destruct (proj1 (get_z_returns_one_long_row long_vqvae padded_four_samples)
                _ padded_four_samples_tokens) as (top & H1 & _ & H3).
    exists top. split; [exact H1 | exact H3].
Defined.

(** ** The forward pass *)

Lemma slice1_one_row {A} (d : list A) (n k : Z) :
  k <= n ->
  slice1 (Tensor [1; n] d) k = Ok (Tensor [1; k] (take (Z.to_nat k) d)).
Proof.
  intros Hk. unfold slice1. cbn [shape data numel_of foldr].
  rewrite Z.min_l by assumption. rewrite !Z.mul_1_r.
  change (Z.to_nat 1) with 1%nat. cbn [seq flat_map Nat.mul drop].
  rewrite app_nil_r. reflexivity.
Qed.

(** X9.  On what get_z returns, get_final_activations calls the prior's
    forward pass once, in encode-only mode, on the first 8192 tokens as a
    (1, 8192) tensor, and leaves the prior's flag set; nothing else of the
    state changes. *)
Theorem forward_sees_the_first_8192_tokens {Labels} (vqvae : VQVAE)
    (top_prior : Prior Labels) (audio : tensor Q) (z : tensor Z)
    (x_cond y_cond : tensor Q) (w : World) :
  get_z vqvae audio = Ok z ->
  get_final_activations top_prior z x_cond y_cond w
  = (Ok (forward top_prior true (Tensor [1; T] (take (Z.to_nat T) (data z)))
           x_cond y_cond),
     with_only_encode w true).
Proof.
  intros Hz.
  destruct (get_z_inv vqvae audio z Hz) as (top & _ & -> & Hlong).
  unfold get_final_activations. rewrite bindM_run. unfold lift.
  rewrite slice1_one_row by (unfold T; lia).
  reflexivity.
Qed.

Lemma forward_sees_the_first_8192_tokens_witness :
  get_final_activations small_prior (Tensor [1; 8192] (repeat 7 (Z.to_nat 8192)))
    (Tensor [] []) (Tensor [] []) world_with_track1
  = (Ok two_row_acts, with_only_encode world_with_track1 true).
Proof.
  exact (forward_sees_the_first_8192_tokens long_vqvae small_prior
           padded_four_samples _ (Tensor [] []) (Tensor [] []) world_with_track1
           padded_four_samples_tokens).
Defined.

(** ** How get_cond fails *)

(** X10.  get_cond on a bundle without [sr] raises KeyError and changes
    nothing; with a prior whose [raw_to_tokens] is 0 it raises
    ZeroDivisionError and changes nothing; on a bundle without
    [n_samples] it raises KeyError after it has assigned [sample_length]. *)
Theorem get_cond_failures {Labels} (top_prior : Prior Labels) (w : World) :
  (hps w !! "sr" = None -> get_cond top_prior w = (Raise (KeyError "sr"), w))
  /\ (forall sr, hps w !! "sr" = Some (HInt sr) -> raw_to_tokens top_prior = 0 ->
        get_cond top_prior w = (Raise ZeroDivisionError, w))
  /\ (forall sr, hps w !! "sr" = Some (HInt sr) -> raw_to_tokens top_prior <> 0 ->
        hps w !! "n_samples" = None ->
        get_cond top_prior w
        = (Raise (KeyError "n_samples"),
           with_sample_length w
             (62 * sr / raw_to_tokens top_prior * raw_to_tokens top_prior))).
Proof.
  split; [|split].
  - intros H. rewrite get_cond_unfold, H. reflexivity.
  - intros sr H H0. rewrite get_cond_unfold, H, H0. reflexivity.
  - intros sr H H0 Hn. rewrite get_cond_unfold, H, Hn.
    destruct (Z.eqb_spec (raw_to_tokens top_prior) 0); [contradiction | reflexivity].
Qed.

Lemma get_cond_failures_witness :
  get_cond small_prior empty_world = (Raise (KeyError "sr"), empty_world)
  /\ get_cond broken_prior world_with_track1
     = (Raise ZeroDivisionError, world_with_track1)
  /\ get_cond small_prior world_without_n_samples
     = (Raise (KeyError "n_samples"),
        with_sample_length world_without_n_samples 2734080).
Proof.
  split; [|split].
  - apply (proj1 (get_cond_failures small_prior empty_world)). reflexivity.
  - apply (proj1 (proj2 (get_cond_failures broken_prior world_with_track1)) 44100);
      reflexivity.
  - apply (proj2 (proj2 (get_cond_failures small_prior world_without_n_samples))
             44100); [reflexivity | discriminate | reflexivity].
Defined.

(** X11.  With a positive [raw_to_tokens], the [sample_length] that
    get_cond stores is the largest multiple of [raw_to_tokens] that does not
    exceed 62 seconds of samples. *)
Theorem sample_length_is_the_largest_multiple {Labels} (top_prior : Prior Labels)
    (w : World) (sr : Z) :
  hps w !! "sr" = Some (HInt sr) -> 0 < raw_to_tokens top_prior ->
  exists v,
    hps (snd (get_cond top_prior w)) !! "sample_length" = Some (HInt v)
    /\ (raw_to_tokens top_prior | v)
    /\ v <= 62 * sr < v + raw_to_tokens top_prior.
Proof.
  intros Hsr Hpos.
  exists (62 * sr / raw_to_tokens top_prior * raw_to_tokens top_prior).
  split.
  - rewrite get_cond_unfold, Hsr.
    destruct (Z.eqb_spec (raw_to_tokens top_prior) 0) as [E0|E0]; [lia|].
    cbv zeta. destruct (hps w !! "n_samples") as [[n|s|l]|];
      cbn [snd with_sample_length hps]; apply lookup_insert_eq.
  - split; [apply Z.divide_factor_r|].
    pose proof (Z.div_mod (62 * sr) (raw_to_tokens top_prior) ltac:(lia)) as E.
    pose proof (Z.mod_pos_bound (62 * sr) (raw_to_tokens top_prior) Hpos) as B.
    lia.
Qed.

Lemma sample_length_is_the_largest_multiple_witness :
  exists v,
    hps (snd (get_cond small_prior world_with_track1)) !! "sample_length"
    = Some (HInt v)
    /\ v <= 62 * 44100 < v + 128.
Proof.
  destruct (sample_length_is_the_largest_multiple small_prior world_with_track1
              44100) as (v & H1 & _ & H3).
  - reflexivity.
  - reflexivity.
  - exists v. split; [exact H1 | exact H3].
Defined.

(** ** The shape of the conditioning *)

Lemma take_take_le {A} (l : list A) (a b : nat) :
  (a <= b)%nat -> take a (take b l) = take a l.
Proof. intros H. rewrite take_take. f_equal. lia. Qed.

(** X12.  From an [x_cond] of shape (b, L, c) and a [y_cond] of shape
    (b, k) with [b > 0], the conditioning keeps the first batch entry: the
    first [min(8192, L)] rows of [x_cond] as a (1, min(8192, L), c) tensor
    and the first row of [y_cond] as a (1, k) tensor.  With an empty batch
    it raises IndexError. *)
Theorem conditioning_keeps_the_first_batch_entry (x y : tensor Q) (b L c k : Z) :
  shape x = [b; L; c] -> shape y = [b; k] -> 0 <= L -> 0 <= c ->
  (0 < b ->
     first_rows_batched x
     = Ok (Tensor [1; Z.min T L; c] (take (Z.to_nat (Z.min T L * c)) (data x)))
     /\ first_batched y = Ok (Tensor [1; k] (take (Z.to_nat k) (data y))))
  /\ (b <= 0 ->
        first_rows_batched x = Raise IndexError
        /\ first_batched y = Raise IndexError).
Proof.
  intros Hx Hy HL Hc. unfold first_rows_batched, first_batched, index0.
  rewrite Hx, Hy. split.
  - intros Hb. destruct (Z.ltb_spec 0 b); [|lia]. cbn [bind].
    unfold slice0, newaxis. cbn [shape data bind numel_of foldr].
    rewrite !Z.mul_1_r. split; [|reflexivity].
    rewrite take_take_le; [reflexivity|].
    assert (Hmin : 0 <= Z.min T L <= L) by (unfold T; lia).
    apply Z2Nat.inj_le; nia.
  - intros Hb. destruct (Z.ltb_spec 0 b); [lia|]. split; reflexivity.
Qed.

Lemma conditioning_keeps_the_first_batch_entry_witness :
  first_rows_batched (Tensor [8; 2; 1] (repeat 0%Q 16))
  = Ok (Tensor [1; 2; 1] [0; 0]%Q)
  /\ first_batched (Tensor [0; 3] []) = Raise IndexError.
Proof.
  split.
  - refine (proj1 (proj1 (conditioning_keeps_the_first_batch_entry
                            (Tensor [8; 2; 1] (repeat 0%Q 16))
                            (Tensor [8; 1] (repeat 0%Q 8)) 8 2 1 1
                            eq_refl eq_refl _ _) _)); lia.
  - refine (proj2 (proj2 (conditioning_keeps_the_first_batch_entry
                            (Tensor [0; 2; 1] []) (Tensor [0; 3] []) 0 2 1 3
                            eq_refl eq_refl _ _) _)); lia.
Defined.

(** ** The pipeline as a whole *)

Lemma tokens_and_conditioning_run {Labels} (lr : Librosa) (vqvae : VQVAE)
    (top_prior : Prior Labels) (audio : tensor Q) (sr : Z) (w : World) :
  tokens_and_conditioning lr vqvae top_prior audio sr w
  = match (a1 <- preprocess_audio lr audio sr ;;
           a2 <- zero_padding a1 ;;
           get_z vqvae a2) with
    | Ok z => match get_cond top_prior w with
              | (Ok c, w1) => (Ok (z, c), w1)
              | (Raise e, w1) => (Raise e, w1)
              end
    | Raise e => (Raise e, w)
    end.
Proof.
  unfold tokens_and_conditioning. rewrite bindM_run. unfold lift at 1.
  destruct (preprocess_audio lr audio sr) as [a1|e]; [|reflexivity]. cbn [bind].
  rewrite bindM_run. unfold lift at 1.
  destruct (zero_padding a1) as [a2|e]; [|reflexivity]. cbn [bind].
  rewrite bindM_run. unfold lift at 1.
  destruct (get_z vqvae a2) as [z|e]; [|reflexivity].
  rewrite bindM_run. destruct (get_cond top_prior w) as [[c|e] w1]; reflexivity.
Qed.

Lemma get_final_activations_run {Labels} (top_prior : Prior Labels)
    (z : tensor Z) (x_cond y_cond : tensor Q) (w : World) :
  get_final_activations top_prior z x_cond y_cond w
  = match slice1 z T with
    | Ok x => (Ok (forward top_prior true x x_cond y_cond), with_only_encode w true)
    | Raise e => (Raise e, w)
    end.
Proof.
  unfold get_final_activations. rewrite bindM_run. unfold lift.
  destruct (slice1 z T); reflexivity.
Qed.

Lemma get_acts_from_array_run {Labels} (lr : Librosa) (vqvae : VQVAE)
    (top_prior : Prior Labels) (audio : tensor Q) (sr meanpool : Z) (w : World) :
  get_acts_from_array lr vqvae top_prior audio sr meanpool w
  = match tokens_and_conditioning lr vqvae top_prior audio sr w with
    | (Ok zc, w1) =>
        match slice1 (fst zc) T with
        | Ok x => (pool_activations
                     (forward top_prior true x (fst (snd zc)) (snd (snd zc))) meanpool,
                   with_only_encode w1 true)
        | Raise e => (Raise e, w1)
        end
    | (Raise e, w1) => (Raise e, w1)
    end.
Proof.
  unfold get_acts_from_array. rewrite bindM_run.
  destruct (tokens_and_conditioning lr vqvae top_prior audio sr w) as [[zc|e] w1];
    [|reflexivity].
  rewrite bindM_run, get_final_activations_run.
  destruct (slice1 (fst zc) T); reflexivity.
Qed.

(** X13.  When get_acts_from_array returns, it returns a well-formed
    array of shape (meanpool, 4800) with meanpool positive; the prior's
    flag is set, [sample_length] has been assigned in the bundle, and the
    files and the history are as before. *)
Theorem get_acts_from_array_on_success {Labels} (lr : Librosa) (vqvae : VQVAE)
    (top_prior : Prior Labels) (audio out : tensor Q) (sr meanpool : Z)
    (w w' : World) :
  get_acts_from_array lr vqvae top_prior audio sr meanpool w = (Ok out, w') ->
  0 < meanpool /\ shape out = [meanpool; 4800] /\ well_formed out
  /\ only_encode w' = true
  /\ files w' = files w /\ history w' = history w
  /\ exists v, hps w' = <["sample_length" := HInt v]> (hps w).
Proof.
  rewrite get_acts_from_array_run, tokens_and_conditioning_run.
  destruct (a1 <- preprocess_audio lr audio sr ;; a2 <- zero_padding a1 ;;
            get_z vqvae a2) as [z|e]; [|discriminate].
  rewrite get_cond_unfold.
  destruct (hps w !! "sr") as [[srv|s|l]|]; try discriminate.
  destruct (raw_to_tokens top_prior =? 0); [discriminate|]. cbv zeta.
  destruct (hps w !! "n_samples") as [[n|s|l]|]; try discriminate.
  destruct (conditioning top_prior _ n) as [c|e]; [|discriminate].
  cbn [fst snd]. destruct (slice1 z T) as [x|e]; [|discriminate].
  intros [= Hpool <-].
  destruct (pool_activations_inv _ out meanpool Hpool) as (H1 & H2 & H3).
  split; [exact H1|]. split; [exact H2|]. split; [exact H3|].
  split; [reflexivity|]. split; [reflexivity|]. split; [reflexivity|].
  eexists. reflexivity.
Qed.

Lemma get_acts_from_array_on_success_witness :
  shape (value_of (Tensor [] [])
           (fst (get_acts_from_array same_rate_librosa long_vqvae small_prior
                   loud_stereo 44100 2 world_with_track1)))
  = [2; 4800].
Proof.
  refine (proj1 (proj2 (get_acts_from_array_on_success same_rate_librosa long_vqvae
                          small_prior loud_stereo _ 44100 2 world_with_track1
                          (snd (get_acts_from_array same_rate_librosa long_vqvae
                                  small_prior loud_stereo 44100 2 world_with_track1))
                          _))).
  vm_compute. reflexivity.
Defined.

(** ** No influence of one file on the next *)

Lemma get_acts_from_array_result {Labels} (lr : Librosa) (vqvae : VQVAE)
    (top_prior : Prior Labels) (audio : tensor Q) (sr meanpool : Z) (w1 w2 : World) :
  hps w1 !! "sr" = hps w2 !! "sr" ->
  hps w1 !! "n_samples" = hps w2 !! "n_samples" ->
  fst (get_acts_from_array lr vqvae top_prior audio sr meanpool w1)
  = fst (get_acts_from_array lr vqvae top_prior audio sr meanpool w2).
Proof.
  intros Hsr Hn.
  pose proof (get_cond_result_reads_two_fields top_prior w1 w2 Hsr Hn) as Hc.
  rewrite !get_acts_from_array_run, !tokens_and_conditioning_run.
  destruct (a1 <- preprocess_audio lr audio sr ;; a2 <- zero_padding a1 ;;
            get_z vqvae a2) as [z|e]; [|reflexivity].
  destruct (get_cond top_prior w1) as [[c1|e1] w1'];
    destruct (get_cond top_prior w2) as [[c2|e2] w2']; cbn [fst] in Hc;
    try discriminate Hc; injection Hc as <-; [|reflexivity].
  cbn [fst snd]. destruct (slice1 z T); reflexivity.
Qed.

Lemma get_acts_from_file_result {Labels} (lr : Librosa) (vqvae : VQVAE)
    (top_prior : Prior Labels) (fpath : string * string) (meanpool : Z)
    (w1 w2 : World) :
  hps w1 !! "sr" = hps w2 !! "sr" ->
  hps w1 !! "n_samples" = hps w2 !! "n_samples" ->
  fst (get_acts_from_file lr vqvae top_prior fpath meanpool w1)
  = fst (get_acts_from_file lr vqvae top_prior fpath meanpool w2).
Proof.
  intros Hsr Hn. unfold get_acts_from_file. rewrite !bindM_run. unfold lift.
  destruct (load_audio_from_file lr fpath) as [a|e]; [|reflexivity].
  apply get_acts_from_array_result; assumption.
Qed.

Lemma wosl_get_acts_from_file {Labels} (lr : Librosa) (vqvae : VQVAE)
    (top_prior : Prior Labels) (fpath : string * string) (meanpool : Z) :
  writes_only_sample_length (get_acts_from_file lr vqvae top_prior fpath meanpool).
Proof.
  unfold get_acts_from_file.
  apply wosl_bind; [apply wosl_lift | intros a].
  apply wosl_get_acts_from_array.
Qed.

(** X14.  What the pipeline returns for an input, array or error, depends
    on the state only through the fields [sr] and [n_samples] of the
    bundle, and processing an input changes neither: the result for a file
    is the same wherever it comes in a run. *)
Theorem embedding_does_not_depend_on_earlier_files {Labels} (lr : Librosa)
    (vqvae : VQVAE) (top_prior : Prior Labels) (fpath other : string * string)
    (meanpool meanpool' : Z) (w : World) :
  fst (get_acts_from_file lr vqvae top_prior fpath meanpool
         (snd (get_acts_from_file lr vqvae top_prior other meanpool' w)))
  = fst (get_acts_from_file lr vqvae top_prior fpath meanpool w).
Proof.
  apply get_acts_from_file_result;
    apply (wosl_get_acts_from_file lr vqvae top_prior other meanpool'); discriminate.
Qed.

(** ** A run as a sequence of independent files *)

Section RunFacts.
Context {Labels : Type}.
Variable lr : Librosa.
Variable vqvae : VQVAE.
Variable top_prior : Prior Labels.
Variables input_dir output_dir : string.
Variable average_pool_slices : Z.

Abbreviation alone name :=
  (embedding_of lr vqvae top_prior (input_dir, name) average_pool_slices).

(** The full account of a loop with the flag off, started from a bundle
    with the loader's [sr] and [n_samples]. *)
Lemma embed_loop_uncached_account (names : list string) (w : World) :
  hps w !! "sr" = loaded_hps !! "sr" ->
  hps w !! "n_samples" = loaded_hps !! "n_samples" ->
  match fst (embed_loop lr vqvae top_prior false input_dir output_dir
               average_pool_slices names w) with
  | Ok _ =>
      exists reprs,
        Forall2 (fun name r => alone name = Ok r) names reprs
        /\ history (snd (embed_loop lr vqvae top_prior false input_dir output_dir
                           average_pool_slices names w))
           = history w ++ driver_calls input_dir output_dir (zip names reprs)
  | Raise e =>
      exists before name rest reprs,
        names = before ++ name :: rest
        /\ Forall2 (fun name r => alone name = Ok r) before reprs
        /\ alone name = Raise e
        /\ history (snd (embed_loop lr vqvae top_prior false input_dir output_dir
                           average_pool_slices names w))
           = history w ++ driver_calls input_dir output_dir (zip before reprs)
               ++ [Call_get_acts_from_file (input_dir, name)]
  end.
Proof.
  revert w. induction names as [|name rest IH]; intros w Hsr Hn.
  - cbn. exists []. split; [constructor | rewrite app_nil_r; reflexivity].
  - rewrite embed_loop_cons.
    rewrite embed_one_compute by (left; reflexivity).
    set (w0 := after_call w (Call_get_acts_from_file (input_dir, name))).
    assert (Halone : fst (get_acts_from_file lr vqvae top_prior (input_dir, name)
                            average_pool_slices w0) = alone name).
    { apply get_acts_from_file_result; [exact Hsr | exact Hn]. }
    pose proof (pipeline_keeps_disk lr vqvae top_prior input_dir
                  average_pool_slices name w0) as [_ Hh].
    pose proof (wosl_get_acts_from_file lr vqvae top_prior (input_dir, name)
                  average_pool_slices w0) as Hw.
    destruct (get_acts_from_file lr vqvae top_prior (input_dir, name)
                average_pool_slices w0) as [[r|e] w1]; cbn [fst snd] in *.
    + specialize (IH (after_save w1 (output_path_of output_dir name) r)).
      cbn [after_save hps] in IH.
      rewrite (Hw "sr"), (Hw "n_samples") in IH by discriminate.
      specialize (IH Hsr Hn).
      destruct (fst (embed_loop lr vqvae top_prior false input_dir output_dir
                       average_pool_slices rest
                       (after_save w1 (output_path_of output_dir name) r)))
        as [u|e].
      * destruct IH as (reprs & HF & Hhist). exists (r :: reprs).
        split; [constructor; [symmetry; exact Halone | exact HF]|].
        rewrite Hhist. cbn [after_save history zip zip_with driver_calls flat_map
                              fst snd]. rewrite Hh. cbn [w0 after_call history].
        rewrite <- !app_assoc. reflexivity.
      * destruct IH as (before & nm & rest' & reprs & Hsplit & HF & Hfail & Hhist).
        exists (name :: before), nm, rest', (r :: reprs).
        split; [rewrite Hsplit; reflexivity|].
        split; [constructor; [symmetry; exact Halone | exact HF]|].
        split; [exact Hfail|].
        rewrite Hhist. cbn [after_save history zip zip_with driver_calls flat_map
                              fst snd]. rewrite Hh. cbn [w0 after_call history].
        rewrite <- !app_assoc. reflexivity.
    + exists [], name, rest, []. split; [reflexivity|]. split; [constructor|].
      split; [symmetry; exact Halone|]. rewrite Hh. reflexivity.
Qed.

(** X15.  A folder run that ends normally has saved, for every [.wav]
    input in sorted order, exactly the array that processing that file
    alone would return. *)
Theorem folder_run_saves_the_standalone_embeddings (listing : list string)
    (w : World) :
  fst (embed_from_folder lr vqvae top_prior listing input_dir output_dir
         average_pool_slices w) = Ok tt ->
  exists reprs,
    Forall2 (fun name r => alone name = Ok r) (wav_inputs listing) reprs
    /\ history (snd (embed_from_folder lr vqvae top_prior listing input_dir
                       output_dir average_pool_slices w))
       = history w ++ driver_calls input_dir output_dir
                        (zip (wav_inputs listing) reprs).
Proof.
  rewrite embed_from_folder_is_the_loop. change USING_CACHED_FILE with false.
  intros Hok.
  pose proof (embed_loop_uncached_account (wav_inputs listing)
                (snd (load_vqvae_and_prior w)) eq_refl eq_refl) as H.
  rewrite Hok in H. exact H.
Qed.

(** The body of the loop writes no field of the bundle but
    [sample_length], whichever branch it takes. *)
Lemma wosl_embed_one (flag : bool) (name : string) :
  writes_only_sample_length
    (embed_one lr vqvae top_prior flag input_dir output_dir average_pool_slices name).
Proof.
  intros w field Hf. unfold embed_one. rewrite bindM_run. unfold path_exists.
  destruct (bool_decide (is_Some (files w !! output_path_of output_dir name)) && flag).
  - rewrite bindM_run. unfold np_load. rewrite bindM_run. unfold record.
    cbn [files]. destruct (files w !! output_path_of output_dir name); reflexivity.
  - rewrite bindM_run. unfold record. rewrite bindM_run.
    pose proof (wosl_get_acts_from_file lr vqvae top_prior (input_dir, name)
                  average_pool_slices
                  {| hps := hps w; only_encode := only_encode w; files := files w;
                     history := history w ++ [Call_get_acts_from_file (input_dir, name)] |}
                  field Hf) as Hw.
    destruct (get_acts_from_file lr vqvae top_prior (input_dir, name)
                average_pool_slices _) as [[r|e] w1]; cbn [snd hps] in *.
    + unfold np_save. rewrite bindM_run. unfold record. cbn [snd hps]. exact Hw.
    + exact Hw.
Qed.

Lemma wosl_embed_loop (flag : bool) (names : list string) :
  writes_only_sample_length
    (embed_loop lr vqvae top_prior flag input_dir output_dir average_pool_slices names).
Proof.
  induction names as [|name rest IH]; intros w field Hf; [reflexivity|].
  rewrite embed_loop_cons.
  pose proof (wosl_embed_one flag name w field Hf) as H1.
  destruct (embed_one lr vqvae top_prior flag input_dir output_dir
              average_pool_slices name w) as [[u|e] w1]; cbn [snd] in *.
  - rewrite (IH w1 field Hf). exact H1.
  - exact H1.
Qed.

(** X16.  In a run whose models are loaded, once the loop has got through
    the inputs before [name] (their pipelines and their saves ended
    normally), an exception of the pipeline for [name] ends the loop: the
    loop raises that exception, nothing is saved for [name], and no later
    input is touched, whatever inputs follow. *)
Theorem pipeline_failure_aborts_the_loop (flag : bool) (before : list string)
    (name : string) (rest : list string) (w : World) (e : exn) :
  hps w !! "sr" = loaded_hps !! "sr" ->
  hps w !! "n_samples" = loaded_hps !! "n_samples" ->
  fst (embed_loop lr vqvae top_prior flag input_dir output_dir average_pool_slices
         before w) = Ok tt ->
  (flag = false
   \/ files (snd (embed_loop lr vqvae top_prior flag input_dir output_dir
                    average_pool_slices before w))
        !! output_path_of output_dir name = None) ->
  alone name = Raise e ->
  fst (embed_loop lr vqvae top_prior flag input_dir output_dir average_pool_slices
         (before ++ name :: rest) w) = Raise e
  /\ files (snd (embed_loop lr vqvae top_prior flag input_dir output_dir
                   average_pool_slices (before ++ name :: rest) w))
     = files (snd (embed_loop lr vqvae top_prior flag input_dir output_dir
                     average_pool_slices before w))
  /\ history (snd (embed_loop lr vqvae top_prior flag input_dir output_dir
                     average_pool_slices (before ++ name :: rest) w))
     = history (snd (embed_loop lr vqvae top_prior flag input_dir output_dir
                       average_pool_slices before w))
         ++ [Call_get_acts_from_file (input_dir, name)].
Proof.
  intros Hsr Hn Hok Hmiss Hfail.
  rewrite embed_loop_app.
  pose proof (wosl_embed_loop flag before w) as Hw.
  destruct (embed_loop lr vqvae top_prior flag input_dir output_dir
              average_pool_slices before w) as [[u|e0] w1]; cbn [fst snd] in *;
    [|discriminate].
  rewrite embed_loop_cons, (embed_one_compute _ _ _ _ _ _ _ _ _ Hmiss).
  set (w0 := after_call w1 (Call_get_acts_from_file (input_dir, name))).
  assert (Halone : fst (get_acts_from_file lr vqvae top_prior (input_dir, name)
                          average_pool_slices w0) = alone name).
  { apply get_acts_from_file_result; cbn [w0 after_call hps].
    - rewrite (Hw "sr") by discriminate. exact Hsr.
    - rewrite (Hw "n_samples") by discriminate. exact Hn. }
  pose proof (pipeline_keeps_disk lr vqvae top_prior input_dir
                average_pool_slices name w0) as [Hf Hh].
  destruct (get_acts_from_file lr vqvae top_prior (input_dir, name)
              average_pool_slices w0) as [[r|e1] w2]; cbn [fst snd] in *.
  - rewrite Hfail in Halone. discriminate.
  - rewrite Hfail in Halone. injection Halone as ->.
    split; [reflexivity|]. split; [exact Hf | exact Hh].
Qed.
End RunFacts.

Lemma folder_run_saves_the_standalone_embeddings_witness :
  exists reprs,
    Forall2 (fun name r =>
               embedding_of same_rate_librosa long_vqvae small_prior ("in", name) 2
               = Ok r)
      ["track1.wav"; "track2.wav"] reprs.
Proof.
  destruct (folder_run_saves_the_standalone_embeddings same_rate_librosa long_vqvae
              small_prior "in" "out" 2 ["track2.wav"; "notes.txt"; "track1.wav"]
              world_with_track1) as (reprs & HF & _).
  - vm_compute. reflexivity.
  - exists reprs. exact HF.
Defined.

Lemma pipeline_failure_aborts_the_loop_witness :
  fst (embed_loop (librosa_with_unreadable "b.wav") long_vqvae small_prior false
         "in" "out" 2 (["a.wav"] ++ "b.wav" :: ["c.wav"]) world_with_track1)
  = Raise (RuntimeError "cannot decode").
Proof.
  refine (proj1 (pipeline_failure_aborts_the_loop (librosa_with_unreadable "b.wav")
                   long_vqvae small_prior "in" "out" 2 false ["a.wav"] "b.wav"
                   ["c.wav"] world_with_track1 (RuntimeError "cannot decode")
                   _ _ _ _ _)).
  - reflexivity.
  - reflexivity.
  - vm_compute. reflexivity.
  - left. reflexivity.
  - vm_compute. reflexivity.
Defined.

(** ** The inputs of a run *)

Lemma StronglySorted_bool_filter {B} (R : B -> B -> Prop) (f : B -> bool) (l : list B) :
  StronglySorted R l -> StronglySorted R (List.filter f l).
Proof.
  induction 1 as [|a l Hl IH Ha]; cbn [List.filter]; [constructor|].
  destruct (f a); [|exact IH].
  constructor; [exact IH|].
  rewrite Forall_forall in Ha |- *. intros x Hx.
  apply list_elem_of_In, filter_In in Hx. apply Ha, list_elem_of_In, Hx.
Qed.

Lemma Permutation_bool_filter {B} (f : B -> bool) (l l' : list B) :
  l ≡ₚ l' -> List.filter f l ≡ₚ List.filter f l'.
Proof.
  induction 1 as [|x l l' _ IH|x y l|l l' l'' _ IH1 _ IH2]; cbn [List.filter].
  - constructor.
  - destruct (f x); [constructor|]; exact IH.
  - destruct (f x), (f y); try reflexivity. constructor.
  - etransitivity; eassumption.
Qed.

(** X17.  The inputs of a run are the entries of the directory listing
    whose names end in [.wav], each as often as it is listed, in
    ascending order of their names. *)
Theorem wav_inputs_are_the_sorted_wav_names (listing : list string) :
  (forall name,
     In name (wav_inputs listing)
     <-> In name listing /\ endswith name ".wav" = true)
  /\ StronglySorted String.le (wav_inputs listing)
  /\ wav_inputs listing ≡ₚ List.filter (fun x => endswith x ".wav") listing.
Proof.
  unfold wav_inputs. split; [|split].
  - intros name. rewrite filter_In.
    pose proof (merge_sort_Permutation String.le listing) as HP.
    split; intros [Hin He]; (split; [|exact He]).
    + apply list_elem_of_In. rewrite <- HP. apply list_elem_of_In. exact Hin.
    + apply list_elem_of_In. rewrite HP. apply list_elem_of_In. exact Hin.
  - apply StronglySorted_bool_filter.
    apply StronglySorted_merge_sort; [apply String.le_po | apply String.le_total].
  - apply Permutation_bool_filter, merge_sort_Permutation.
Qed.

Lemma wav_inputs_are_the_sorted_wav_names_witness :
  In "a.wav" (wav_inputs ["b.wav"; "a.wav"; "c.txt"]).
Proof.
  apply (proj1 (wav_inputs_are_the_sorted_wav_names ["b.wav"; "a.wav"; "c.txt"])).
  split; [right; left; reflexivity | reflexivity].
Defined.

(** ** The name of the output file *)

Lemma rev_app_append (s1 s2 acc : string) :
  String.rev_app (s1 +:+ s2) acc = String.rev_app s2 (String.rev_app s1 acc).
Proof.
  revert acc. induction s1 as [|a s1 IH]; intros acc; [reflexivity|].
  change (String a s1 +:+ s2) with (String a (s1 +:+ s2)).
  cbn [String.rev_app]. apply IH.
Qed.

Lemma rev_of_wav_name (base : string) :
  String.rev (base +:+ ".wav")
  = "vaw." +:+ String.rev base.
Proof. unfold String.rev. rewrite rev_app_append. reflexivity. Qed.

Lemma length_of_wav_name (base : string) :
  String.length (base +:+ ".wav") = (String.length base + 4)%nat.
Proof.
  induction base as [|a base IH]; [reflexivity|].
  change (String a base +:+ ".wav") with (String a (base +:+ ".wav")).
  cbn [String.length]. rewrite IH. reflexivity.
Qed.

Lemma substring_of_append (base rest : string) :
  String.substring 0 (String.length base) (base +:+ rest) = base.
Proof.
  induction base as [|a base IH].
  - destruct rest; reflexivity.
  - change (String a base +:+ rest) with (String a (base +:+ rest)).
    cbn [String.length String.substring]. rewrite IH. reflexivity.
Qed.

(** X18.  A name [base.wav] passes the filter of the driver, and its
    array is saved as [base.npy] in the output directory; the bare name
    [.wav] is saved as [.wav.npy]. *)
Theorem output_name_replaces_the_suffix (output_dir base : string) :
  endswith (base +:+ ".wav") ".wav" = true
  /\ (base <> "" ->
      stem (base +:+ ".wav") = base
      /\ output_path_of output_dir (base +:+ ".wav") = (output_dir, base +:+ ".npy"))
  /\ (base = "" ->
      output_path_of output_dir (base +:+ ".wav") = (output_dir, ".wav.npy")).
Proof.
  split; [|split].
  - unfold endswith. rewrite rev_of_wav_name.
    destruct (String.rev base); reflexivity.
  - intros Hne.
    assert (Hstem : stem (base +:+ ".wav") = base).
    { unfold stem. rewrite rev_of_wav_name.
      assert (Hidx : String.index 0 "." ("vaw." +:+ String.rev base) = Some 3%nat)
        by (destruct (String.rev base); reflexivity).
      rewrite Hidx.
      rewrite length_of_wav_name.
      assert (Hlen : (0 < String.length base)%nat).
      { destruct base; [contradiction | cbn [String.length]; lia]. }
      replace ((0 <? 3)%nat && (3 <? String.length base + 4 - 1)%nat) with true
        by (symmetry; apply andb_true_iff; split; apply Nat.ltb_lt; lia).
      replace (String.length base + 4 - 1 - 3)%nat with (String.length base) by lia.
      apply substring_of_append. }
    split; [exact Hstem|]. unfold output_path_of. rewrite Hstem. reflexivity.
  - intros ->. reflexivity.
Qed.

Lemma output_name_replaces_the_suffix_witness :
  output_path_of "out" "track1.wav" = ("out", "track1.npy")
  /\ output_path_of "out" ".wav" = ("out", ".wav.npy").
Proof.
  split.
  - apply (proj2 (proj1 (proj2 (output_name_replaces_the_suffix "out" "track1"))
                    ltac:(discriminate))).
  - apply (proj2 (proj2 (output_name_replaces_the_suffix "out" "")) eq_refl).
Defined.
